(** * localQA: the vector collection store (src/vector_store.py)

    A shallow embedding of [VectorStore] and of the two [urllib.parse]
    calls it relies on for directory names, followed by the properties of
    the store that the specification states.

    Layout:
    - Python values: strings as lists of code points, exceptions,
      insertion-ordered dictionaries;
    - [Analyzer]: [VectorStore.analyze_collection];
    - [NameCodec]: [urllib.parse.quote(name, safe='')] and
      [urllib.parse.unquote], over UTF-8;
    - [Store]: the file system seen by the store, the object state, and the
      methods [__init__], [_create_index], [_load_index], [_save_index],
      [add_documents], [_get_related_chunks], [search],
      [delete_collection];
    - [ZFlat]: an exact flat index with integer coordinates, used to run the
      store on concrete inputs;
    - the theorems. *)

From Stdlib Require Import QArith_base.
From stdpp Require Import gmap list sorting numbers strings.
#[local] Set Warnings "-clear-no-such-hyp".
Local Close Scope Q_scope.
Local Open Scope nat_scope.

(** ** Python values *)

(** A Python [str] is a sequence of code points; [len] counts code points. *)
Abbreviation pystr := (list N).

(** ASCII literals, for fixtures. *)
Definition py (s : string) : pystr :=
  map Ascii.N_of_ascii (String.list_ascii_of_string s).

(** The exceptions the store can let escape. *)
Inductive exn : Type :=
| IndexError
| KeyError
| ValueError
| AssertionError
| OSError
| FileNotFoundError
| UnicodeEncodeError
| UnpicklingError
| FaissError.

Inductive result (A : Type) : Type :=
| Ok (a : A)
| Raise (e : exn).
Arguments Ok {A} a.
Arguments Raise {A} e.

#[export] Instance result_ret : MRet result := λ A a, Ok a.
#[export] Instance result_bind : MBind result := λ A B f m,
  match m with Ok a => f a | Raise e => Raise e end.

(** [l[i]] for a Python list or a one-dimensional numpy array: negative
    indices count from the end, anything out of range raises. *)
Definition py_getitem {A} (l : list A) (i : Z) : result A :=
  let n := Z.of_nat (length l) in
  let j := (if decide (i < 0)%Z then i + n else i)%Z in
  if decide (0 ≤ j < n)%Z then
    match l !! Z.to_nat j with Some a => Ok a | None => Raise IndexError end
  else Raise IndexError.

(** [l.index(x)]: first position of [x], [ValueError] when absent. *)
Definition py_index `{EqDecision A} (l : list A) (x : A) : result nat :=
  match list_find (λ y, y = x) l with
  | Some (i, _) => Ok i
  | None => Raise ValueError
  end.

(** Insertion-ordered dictionaries ([dict]): association lists without
    repeated keys; assigning to a present key keeps its place. *)
Section dict.
Context {K V : Type} `{EqDecision K}.

Fixpoint dict_get (k : K) (d : list (K * V)) : option V :=
  match d with
  | [] => None
  | (k', v) :: d' => if decide (k = k') then Some v else dict_get k d'
  end.

Fixpoint dict_set (k : K) (v : V) (d : list (K * V)) : list (K * V) :=
  match d with
  | [] => [(k, v)]
  | (k', v') :: d' =>
      if decide (k = k') then (k, v) :: d' else (k', v') :: dict_set k v d'
  end.

Definition dict_keys (d : list (K * V)) : list K := d.*1.
Definition dict_values (d : list (K * V)) : list V := d.*2.
End dict.

(** ** The records stored in a collection *)

(** The [metadata] dictionary built by [DocumentEmbedder.split_text]
    (src/embedder.py). [prev_chunks] and [next_chunks] are read with
    [.get(key, [])], so an absent key is the empty list. *)
Record Metadata : Type := {
  file_path : pystr;
  file_name : pystr;
  file_type : pystr;
  chunk_id : Z;
  chunk_total : Z;
  prev_chunks : list Z;
  next_chunks : list Z;
  file_chunk_index : Z
}.

(** One element of [metadata_list]: [{"text": ..., "metadata": ...}]. *)
Record Entry : Type := {
  text : pystr;
  metadata : Metadata
}.

(** ** Analyzer: [VectorStore.analyze_collection] *)

Module Analyzer.

Record FileStat : Type := {
  chunk_count : nat;
  total_length : nat;
  stat_file_type : pystr
}.

(** The three accumulators of the loop over [metadata_list]. *)
Record Acc : Type := {
  file_stats : list (pystr * FileStat);
  chunk_lengths : list nat;
  file_chunk_counts : list nat
}.

Definition acc0 : Acc :=
  {| file_stats := []; chunk_lengths := []; file_chunk_counts := [] |}.

(** One iteration of [for doc in self.metadata_list]. The entry of
    [file_name] is created with zero counters when absent, then its two
    counters are increased in place; the count appended to
    [file_chunk_counts] is the one just written. *)
Definition analyze_step (acc : Acc) (doc : Entry) : Acc :=
  let fname := file_name (metadata doc) in
  let chunk_length := length (text doc) in
  let stat0 :=
    match dict_get fname (file_stats acc) with
    | Some s => s
    | None => {| chunk_count := 0; total_length := 0;
                 stat_file_type := file_type (metadata doc) |}
    end in
  let stat := {| chunk_count := chunk_count stat0 + 1;
                 total_length := total_length stat0 + chunk_length;
                 stat_file_type := stat_file_type stat0 |} in
  {| file_stats := dict_set fname stat (file_stats acc);
     chunk_lengths := chunk_lengths acc ++ [chunk_length];
     file_chunk_counts := file_chunk_counts acc ++ [chunk_count stat] |}.

Definition analyze_loop (l : list Entry) : Acc := fold_left analyze_step l acc0.

(** [for stat in file_stats.values(): file_types[stat["file_type"]] += 1]. *)
Definition count_file_types (stats : list FileStat) : list (pystr * nat) :=
  fold_left
    (λ file_types stat,
       let n := default 0 (dict_get (stat_file_type stat) file_types) in
       dict_set (stat_file_type stat) (n + 1) file_types)
    stats [].

(** [min], [max], [sum], [sorted] on lists of non-negative integers. *)
Definition py_min (l : list nat) : nat :=
  match l with [] => 0 | x :: l' => foldl Nat.min x l' end.
Definition py_max (l : list nat) : nat :=
  match l with [] => 0 | x :: l' => foldl Nat.max x l' end.
Definition py_sum (l : list nat) : nat := foldl Nat.add 0 l.
Definition sorted (l : list nat) : list nat := merge_sort (≤) l.

(** [a / b if b > 0 else 0], as the exact quotient. Python yields the
    nearest double of this rational. *)
Definition py_div_or_0 (a b : nat) : Q :=
  if decide (0 < b) then Qmake (Z.of_nat a) (Pos.of_nat b) else Qmake 0 1.

Record Distribution : Type := {
  dist_min : nat;
  dist_max : nat;
  dist_mean : Q;
  dist_median : nat;
  dist_values : list nat
}.

(** [{"min": min(v) if v else 0, ..., "median":
      sorted(v)[len(v)//2] if v else 0, "values": v}]. *)
Definition distribution (v : list nat) : Distribution :=
  {| dist_min := py_min v;
     dist_max := py_max v;
     dist_mean := py_div_or_0 (py_sum v) (length v);
     dist_median := default 0 (sorted v !! (length v `div` 2));
     dist_values := v |}.

(** The returned dictionary. The two averages are kept exact; the source
    rounds their floating-point values to two decimals. *)
Record Analysis : Type := {
  total_chunks : nat;
  total_files : nat;
  total_length_all : nat;
  avg_chunks_per_file : Q;
  avg_length_per_chunk : Q;
  file_types : list (pystr * nat);
  res_file_stats : list (pystr * FileStat);
  dist_chunk_lengths : Distribution;
  dist_file_chunk_counts : Distribution
}.

Definition analyze_collection (metadata_list : list Entry) : Analysis :=
  let acc := analyze_loop metadata_list in
  let total_chunks := length metadata_list in
  let total_files := length (file_stats acc) in
  let total_length := py_sum (total_length <$> dict_values (file_stats acc)) in
  {| total_chunks := total_chunks;
     total_files := total_files;
     total_length_all := total_length;
     avg_chunks_per_file := py_div_or_0 total_chunks total_files;
     avg_length_per_chunk := py_div_or_0 total_length total_chunks;
     file_types := count_file_types (dict_values (file_stats acc));
     res_file_stats := file_stats acc;
     dist_chunk_lengths := distribution (chunk_lengths acc);
     dist_file_chunk_counts := distribution (file_chunk_counts acc) |}.

(** The fixture of the specification: file A with chunks of length 10, 20
    and 30, file B with one chunk of length 5. *)
Definition chunk_of (fname : string) (len : nat) (i : Z) : Entry :=
  {| text := replicate len 120%N;
     metadata := {| file_path := py fname; file_name := py fname;
                    file_type := py "Text"; chunk_id := i; chunk_total := 0;
                    prev_chunks := []; next_chunks := [];
                    file_chunk_index := i |} |}.

Definition fixture : list Entry :=
  [chunk_of "A" 10 0; chunk_of "A" 20 1; chunk_of "A" 30 2; chunk_of "B" 5 0].

(** The file names and the text lengths of a metadata list, in list
    order. *)
Definition names (l : list Entry) : list pystr :=
  (λ e, file_name (metadata e)) <$> l.
Definition lengths (l : list Entry) : list nat :=
  (λ e, length (text e)) <$> l.

(** The chunk counts per file, one entry per distinct file. *)
Definition per_file_chunk_counts (l : list Entry) : list nat :=
  chunk_count <$> dict_values (res_file_stats (analyze_collection l)).

(** The entries of the file [fname], in list order. *)
Definition entries_of (fname : pystr) (l : list Entry) : list Entry :=
  filter (λ e, file_name (metadata e) = fname) l.

(** The statistics of a file with first entry [e0] and entries [es]. *)
Definition stat_of (e0 : Entry) (es : list Entry) : FileStat :=
  {| chunk_count := length es;
     total_length := sum_list (lengths es);
     stat_file_type := file_type (metadata e0) |}.

(** What the loop of [analyze_collection] has accumulated after the
    entries [l]. *)
Record loop_inv (l : list Entry) (acc : Acc) : Prop := {
  inv_lengths : chunk_lengths acc = lengths l;
  inv_nodup : NoDup (dict_keys (file_stats acc));
  inv_keys : ∀ k, k ∈ dict_keys (file_stats acc) ↔ k ∈ names l;
  inv_total :
    sum_list (total_length <$> dict_values (file_stats acc))
    = sum_list (lengths l);
  inv_counts : length (file_chunk_counts acc) = length l
}.

End Analyzer.

(** ** NameCodec: [urllib.parse.quote(name, safe='')] and [urllib.parse.unquote] *)

Module NameCodec.
Local Open Scope N_scope.

(** *** UTF-8, as [str.encode('utf-8')] (strict) and
        [bytes.decode('utf-8', 'replace')] *)

(** A code point that [str.encode('utf-8')] accepts: a Unicode scalar
    value. A Python [str] may also hold a lone surrogate
    (U+D800..U+DFFF), on which the strict encoder raises. *)
Definition scalar_value (c : N) : Prop :=
  c < 0xD800 ∨ (0xE000 ≤ c ∧ c < 0x110000).

#[export] Instance scalar_value_dec c : Decision (scalar_value c).
Proof. unfold scalar_value. apply _. Defined.

Definition utf8_encode_cp (c : N) : result (list N) :=
  if decide (c < 0x80) then Ok [c]
  else if decide (c < 0x800) then Ok [0xC0 + c / 64; 0x80 + c mod 64]
  else if decide (c < 0x10000) then
    if decide (0xD800 ≤ c ∧ c ≤ 0xDFFF) then Raise UnicodeEncodeError
    else Ok [0xE0 + c / 4096; 0x80 + (c / 64) mod 64; 0x80 + c mod 64]
  else if decide (c < 0x110000) then
    Ok [0xF0 + c / 262144; 0x80 + (c / 4096) mod 64;
        0x80 + (c / 64) mod 64; 0x80 + c mod 64]
  else Raise UnicodeEncodeError.

Fixpoint utf8_encode (s : pystr) : result (list N) :=
  match s with
  | [] => Ok []
  | c :: s' =>
      bs ← utf8_encode_cp c;
      bs' ← utf8_encode s';
      Ok (bs ++ bs')
  end.

Definition in_range (lo hi b : N) : bool :=
  bool_decide (lo ≤ b ∧ b ≤ hi).

(** Value carried by a continuation byte. *)
Definition cont (b : N) : N := b - 0x80.

Definition replacement : N := 0xFFFD.

(** The decoder follows the table of well-formed byte sequences; an
    ill-formed sequence gives one U+FFFD for its maximal well-formed
    prefix (or its first byte) and decoding resumes right after it. *)
Fixpoint utf8_decode (bs : list N) : pystr :=
  match bs with
  | [] => []
  | b0 :: r0 =>
      if decide (b0 < 0x80) then b0 :: utf8_decode r0
      else if in_range 0xC2 0xDF b0 then
        match r0 with
        | [] => [replacement]
        | b1 :: r1 =>
            if in_range 0x80 0xBF b1
            then ((b0 - 0xC0) * 64 + cont b1) :: utf8_decode r1
            else replacement :: utf8_decode r0
        end
      else if in_range 0xE0 0xEF b0 then
        let lo := if decide (b0 = 0xE0) then 0xA0 else 0x80 in
        let hi := if decide (b0 = 0xED) then 0x9F else 0xBF in
        match r0 with
        | [] => [replacement]
        | b1 :: r1 =>
            if in_range lo hi b1 then
              match r1 with
              | [] => [replacement]
              | b2 :: r2 =>
                  if in_range 0x80 0xBF b2
                  then ((b0 - 0xE0) * 4096 + cont b1 * 64 + cont b2)
                         :: utf8_decode r2
                  else replacement :: utf8_decode r1
              end
            else replacement :: utf8_decode r0
        end
      else if in_range 0xF0 0xF4 b0 then
        let lo := if decide (b0 = 0xF0) then 0x90 else 0x80 in
        let hi := if decide (b0 = 0xF4) then 0x8F else 0xBF in
        match r0 with
        | [] => [replacement]
        | b1 :: r1 =>
            if in_range lo hi b1 then
              match r1 with
              | [] => [replacement]
              | b2 :: r2 =>
                  if in_range 0x80 0xBF b2 then
                    match r2 with
                    | [] => [replacement]
                    | b3 :: r3 =>
                        if in_range 0x80 0xBF b3
                        then ((b0 - 0xF0) * 262144 + cont b1 * 4096
                              + cont b2 * 64 + cont b3) :: utf8_decode r3
                        else replacement :: utf8_decode r2
                    end
                  else replacement :: utf8_decode r1
              end
            else replacement :: utf8_decode r0
        end
      else replacement :: utf8_decode r0
  end.

(** *** Percent-encoding *)

Definition percent : N := 37.

(** [_ALWAYS_SAFE]: letters, digits and [_.-~] are never quoted. With
    [safe=''] nothing else is exempt. *)
Definition always_safe (b : N) : bool :=
  in_range 65 90 b || in_range 97 122 b || in_range 48 57 b
  || bool_decide (b = 95) || bool_decide (b = 46)
  || bool_decide (b = 45) || bool_decide (b = 126).

(** One digit of ['%{:02X}'.format(b)]. *)
Definition hex_upper (n : N) : N := if decide (n < 10) then 48 + n else 55 + n.

Definition quote_byte (b : N) : pystr :=
  if always_safe b then [b] else [percent; hex_upper (b / 16); hex_upper (b mod 16)].

(** [urllib.parse.quote(string, safe='')]. *)
Definition quote (string : pystr) : result pystr :=
  bs ← utf8_encode string;
  Ok (concat (quote_byte <$> bs)).

(** A character of [_hexdig = '0123456789ABCDEFabcdef']. *)
Definition hexval (c : N) : option N :=
  if in_range 48 57 c then Some (c - 48)
  else if in_range 65 70 c then Some (c - 55)
  else if in_range 97 102 c then Some (c - 87)
  else None.

(** [_unquote_impl] on an ASCII run: [%XY] with two hex digits is a byte,
    any other [%] stands for itself. *)
Fixpoint unquote_to_bytes (s : list N) : list N :=
  match s with
  | [] => []
  | c :: r =>
      if decide (c = percent) then
        match r with
        | h :: l :: r2 =>
            match hexval h, hexval l with
            | Some a, Some b => (16 * a + b) :: unquote_to_bytes r2
            | _, _ => percent :: unquote_to_bytes r
            end
        | _ => percent :: unquote_to_bytes r
        end
      else c :: unquote_to_bytes r
  end.

Definition unquote_run (run : list N) : pystr :=
  utf8_decode (unquote_to_bytes run).

(** [_generate_unquoted_parts]: maximal ASCII runs ([[\x00-\x7f]+]) are
    unquoted and decoded, the text between them is kept. [run] is the
    ASCII run read so far. *)
Fixpoint unquote_parts (s : pystr) (run : list N) : pystr :=
  match s with
  | [] => unquote_run run
  | c :: r =>
      if decide (c < 128) then unquote_parts r (run ++ [c])
      else unquote_run run ++ c :: unquote_parts r []
  end.

(** [urllib.parse.unquote(string)], with its defaults
    [encoding='utf-8', errors='replace']. *)
Definition unquote (string : pystr) : pystr :=
  if decide (percent ∈ string) then unquote_parts string [] else string.

(** [get_original_db_name] (src/app.py): [unquote] never raises on a
    [str], so the [except] branch is not taken. *)
Definition get_original_db_name (encoded_name : pystr) : pystr :=
  unquote encoded_name.

(** A name usable as one path segment below [index/]: not empty, not a
    dot segment, and free of separators and NUL. *)
Definition path_segment (s : pystr) : Prop :=
  s ≠ [] ∧ s ≠ py "." ∧ s ≠ py ".." ∧ (47 ∉ s) ∧ (92 ∉ s) ∧ (0 ∉ s).

#[export] Instance path_segment_dec s : Decision (path_segment s).
Proof. unfold path_segment. apply _. Defined.

(** The characters [quote] can emit. *)
Definition quoted_char (c : N) : Prop :=
  always_safe c = true ∨ c = percent.

End NameCodec.

(** ** Store: the [VectorStore] class *)

Module Store.
Import NameCodec.

(** Paths below the working directory, after the operating system has
    resolved them: [[]] is the working directory itself. *)
Abbreviation path := (list pystr).

(** [Path.cwd() / "index" / safe_name], resolved. [safe_name] never holds a
    separator; [pathlib] drops an empty or [.] component, and [..] names
    the parent of [index/]. *)
Definition index_dir_of (safe_name : pystr) : path :=
  if decide (safe_name = py "..") then []
  else if decide (safe_name = [] ∨ safe_name = py ".") then [py "index"]
  else [py "index"; safe_name].

(** What an operation of the environment may refuse to do. *)
Record Faults : Type := {
  mkdir_fails : bool;
  name_write_fails : bool;
  index_write_fails : bool;
  metadata_write_fails : bool;
  rmtree_fails : bool
}.

Definition no_faults : Faults :=
  {| mkdir_fails := false; name_write_fails := false;
     index_write_fails := false; metadata_write_fails := false;
     rmtree_fails := false |}.

(** The positions of a list without their repetitions, in order of first
    occurrence. *)
Fixpoint keep_first (l : list Z) : list Z :=
  match l with
  | [] => []
  | x :: l' => x :: filter (λ y, y ≠ x) (keep_first l')
  end.

(** The content of a file: what was written, or bytes no reader accepts. *)
Inductive blob (A : Type) : Type :=
| Valid (a : A)
| Corrupt.
Arguments Valid {A} a.
Arguments Corrupt {A}.

Section store.
(** Python floats, the [float32] entries numpy converts them to, and the
    distances [faiss] reports. *)
Variables pyfloat float32 distance : Type.
Variable to_float32 : pyfloat → float32.

(** [faiss.IndexFlatL2]: its dimension and the stored vectors, in
    insertion order. *)
Record Index : Type := {
  dim : nat;
  xb : list (list float32)
}.

Definition ntotal (ix : Index) : nat := length (xb ix).

(** [index.search(np.array([q]), k)]: row 0 of the distances and of the
    labels, or the exception [faiss] raises. *)
Variable flat_search :
  Index → list float32 → nat → result (list distance * list Z).

(** A document handed to [add_documents]. *)
Record Document : Type := {
  doc_text : pystr;
  doc_metadata : Metadata;
  embedding : list pyfloat
}.

(** The three files of a collection directory; [None] is an absent file. *)
Record Dir : Type := {
  name_txt : option pystr;
  index_faiss : option (blob Index);
  metadata_pkl : option (blob (list Entry))
}.

Definition empty_dir : Dir :=
  {| name_txt := None; index_faiss := None; metadata_pkl := None |}.

Record VectorStore : Type := {
  collection_name : pystr;
  index_dir : path;
  dimension : option nat;
  index : Index;
  metadata_list : list Entry
}.

(** The object under construction or use, and the file system. *)
Record St : Type := {
  self : VectorStore;
  fs : gmap path Dir
}.

(** State and exceptions: a raised exception keeps the state reached. *)
Definition M (A : Type) : Type := St → St * result A.

#[export] Instance M_ret : MRet M := λ A a s, (s, Ok a).
#[export] Instance M_bind : MBind M := λ A B f m s,
  match m s with
  | (s', Ok a) => f a s'
  | (s', Raise e) => (s', Raise e)
  end.

Definition raise {A} (e : exn) : M A := λ s, (s, Raise e).
Definition lift {A} (r : result A) : M A := λ s, (s, r).
Definition get_self : M VectorStore := λ s, (s, Ok (self s)).
Definition get_fs : M (gmap path Dir) := λ s, (s, Ok (fs s)).
Definition put_self (v : VectorStore) : M unit :=
  λ s, ({| self := v; fs := fs s |}, Ok ()).
Definition put_fs (m : gmap path Dir) : M unit :=
  λ s, ({| self := self s; fs := m |}, Ok ()).

Definition set_index (ix : Index) (v : VectorStore) : VectorStore :=
  {| collection_name := collection_name v; index_dir := index_dir v;
     dimension := dimension v; index := ix;
     metadata_list := metadata_list v |}.
Definition set_metadata_list (l : list Entry) (v : VectorStore) : VectorStore :=
  {| collection_name := collection_name v; index_dir := index_dir v;
     dimension := dimension v; index := index v; metadata_list := l |}.
Definition set_dimension (n : nat) (v : VectorStore) : VectorStore :=
  {| collection_name := collection_name v; index_dir := index_dir v;
     dimension := Some n; index := index v;
     metadata_list := metadata_list v |}.

(** *** The file system *)

Definition ensure_dir (p : path) (m : gmap path Dir) : gmap path Dir :=
  match m !! p with Some _ => m | None => <[p := empty_dir]> m end.

(** [index_dir.mkdir(parents=True, exist_ok=True)]. *)
Definition mkdir_p (p : path) (m : gmap path Dir) : gmap path Dir :=
  ensure_dir p (ensure_dir [py "index"] (ensure_dir [] m)).

(** [shutil.rmtree(p)]: [p] and everything below it. *)
Definition rmtree (p : path) (m : gmap path Dir) : gmap path Dir :=
  filter (λ kv, ¬ p `prefix_of` kv.1) m.

Definition write_name (s : pystr) (d : Dir) : Dir :=
  {| name_txt := Some s; index_faiss := index_faiss d;
     metadata_pkl := metadata_pkl d |}.
Definition write_index (ix : Index) (d : Dir) : Dir :=
  {| name_txt := name_txt d; index_faiss := Some (Valid ix);
     metadata_pkl := metadata_pkl d |}.
Definition write_metadata (l : list Entry) (d : Dir) : Dir :=
  {| name_txt := name_txt d; index_faiss := index_faiss d;
     metadata_pkl := Some (Valid l) |}.

(** [name_path.exists()], [Path(index_path).exists()],
    [Path(metadata_path).exists()]. *)
Definition name_exists (m : gmap path Dir) (p : path) : bool :=
  bool_decide (is_Some (m !! p ≫= name_txt)).
Definition index_exists (m : gmap path Dir) (p : path) : bool :=
  bool_decide (is_Some (m !! p ≫= index_faiss)).
Definition metadata_exists (m : gmap path Dir) (p : path) : bool :=
  bool_decide (is_Some (m !! p ≫= metadata_pkl)).

(** *** Methods *)

(** [_save_index]: [faiss.write_index], then [pickle.dump] into the
    metadata file. Either write can fail; the exception is logged and
    raised again. A failed write leaves its file as it was. *)
Definition _save_index (f : Faults) : M unit :=
  v ← get_self;
  m ← get_fs;
  match m !! index_dir v with
  | None => raise FaissError
  | Some d =>
      if index_write_fails f then raise FaissError
      else
        put_fs (<[index_dir v := write_index (index v) d]> m);;
        if metadata_write_fails f then raise OSError
        else
          put_fs (<[index_dir v :=
                     write_metadata (metadata_list v)
                       (write_index (index v) d)]> m)
  end.

(** [_create_index]: a fresh 1536-dimensional index and an empty
    metadata list, saved at once. *)
Definition _create_index (f : Faults) : M unit :=
  v ← get_self;
  put_self (set_metadata_list []
              (set_index {| dim := 1536; xb := [] |} (set_dimension 1536 v)));;
  _save_index f.

(** [_load_index]: [faiss.read_index], then [pickle.load]. Nothing
    compares the two lengths. *)
Definition _load_index : M unit :=
  v ← get_self;
  m ← get_fs;
  match m !! index_dir v ≫= index_faiss with
  | Some (Valid ix) =>
      put_self (set_index ix v);;
      match m !! index_dir v ≫= metadata_pkl with
      | Some (Valid l) => put_self (set_metadata_list l (set_index ix v))
      | Some Corrupt => raise UnpicklingError
      | None => raise FileNotFoundError
      end
  | Some Corrupt => raise FaissError
  | None => raise FaissError
  end.

(** [__init__], run on an object whose attributes are not set yet. *)
Definition __init__ (f : Faults) (name : pystr) : M unit :=
  safe_name ← lift (quote name);
  let dir := index_dir_of safe_name in
  v ← get_self;
  put_self {| collection_name := name; index_dir := dir;
              dimension := dimension v; index := index v;
              metadata_list := metadata_list v |};;
  (if mkdir_fails f then raise OSError
   else m ← get_fs; put_fs (mkdir_p dir m));;
  m ← get_fs;
  (if name_exists m dir then mret ()
   else if name_write_fails f then raise OSError
   else match m !! dir with
        | Some d => put_fs (<[dir := write_name name d]> m)
        | None => raise FileNotFoundError
        end);;
  m ← get_fs;
  if index_exists m dir && metadata_exists m dir
  then _load_index
  else _create_index f.

(** The unset attributes before [__init__] runs; both branches of
    [__init__] assign [index] and [metadata_list] before returning. *)
Definition blank : VectorStore :=
  {| collection_name := []; index_dir := []; dimension := None;
     index := {| dim := 0; xb := [] |}; metadata_list := [] |}.

(** The expression [VectorStore(name)]: the new object when [__init__]
    returns, and the file system it leaves in either case. *)
Definition new_VectorStore (f : Faults) (name : pystr) (m : gmap path Dir)
  : gmap path Dir * result VectorStore :=
  let '(s, r) := __init__ f name {| self := blank; fs := m |} in
  (fs s, match r with Ok _ => Ok (self s) | Raise e => Raise e end).

(** [np.array(rows, dtype=np.float32)] on a list of lists: rows of
    unequal length are refused. *)
Definition np_array (rows : list (list pyfloat)) : result (list (list float32)) :=
  match rows with
  | [] => Ok []
  | r :: _ =>
      if forallb (λ r', bool_decide (length r' = length r)) rows
      then Ok (fmap (M:=list) to_float32 <$> rows)
      else Raise ValueError
  end.

(** [index.add(x)]: [n, d = x.shape] needs a two-dimensional array (an
    empty batch is one-dimensional), and [d] must be the dimension of
    the index; then the rows are appended. *)
Definition index_add (ix : Index) (x : list (list float32)) : result Index :=
  match x with
  | [] => Raise ValueError
  | r :: _ =>
      if decide (length r = dim ix)
      then Ok {| dim := dim ix; xb := xb ix ++ x |}
      else Raise AssertionError
  end.

Definition entry_of (doc : Document) : Entry :=
  {| text := doc_text doc; metadata := doc_metadata doc |}.

(** [add_documents]: the vectors are added, the metadata appended one by
    one, and the collection saved; an exception is logged and raised
    again. *)
Definition add_documents (f : Faults) (documents : list Document) : M unit :=
  embeddings ← lift (np_array (embedding <$> documents));
  v ← get_self;
  ix ← lift (index_add (index v) embeddings);
  put_self (set_index ix v);;
  put_self (foldl (λ v doc,
                     set_metadata_list (metadata_list v ++ [entry_of doc]) v)
                  (set_index ix v) documents);;
  _save_index f.

(** [_get_related_chunks]. *)
Definition _get_related_chunks (v : VectorStore) (chunk_indices : list Z)
  : gset Z :=
  foldl (λ related_indices idx,
           if decide (0 ≤ idx < Z.of_nat (length (metadata_list v)))%Z then
             match metadata_list v !! Z.to_nat idx with
             | Some e =>
                 related_indices
                   ∪ list_to_set (prev_chunks (metadata e))
                   ∪ list_to_set (next_chunks (metadata e))
                   ∪ {[ idx ]}
             | None => related_indices
             end
           else related_indices)
        ∅ chunk_indices.

(** One element of the list [search] returns. *)
Record Hit : Type := {
  hit_text : pystr;
  hit_metadata : Metadata;
  hit_distance : distance
}.

(** The dictionary built for [idx] in either loop of [search]. *)
Definition make_result (v : VectorStore) (distances : list distance)
    (indices : list Z) (idx : Z) : result Hit :=
  e ← py_getitem (metadata_list v) idx;
  pos ← py_index indices idx;
  dist ← py_getitem distances (Z.of_nat pos);
  Ok {| hit_text := text e; hit_metadata := metadata e;
        hit_distance := dist |}.

(** The two loops of [search] over [results] and [seen_indices]; the
    second one also asks that [idx] be in [initial_results]. *)
Fixpoint add_results (v : VectorStore) (distances : list distance)
    (indices : list Z) (keep : Z → bool) (todo : list Z)
    (results : list Hit) (seen_indices : gset Z)
  : result (list Hit * gset Z) :=
  match todo with
  | [] => Ok (results, seen_indices)
  | idx :: todo' =>
      if bool_decide (idx ∉ seen_indices) && keep idx then
        r ← make_result v distances indices idx;
        add_results v distances indices keep todo'
          (results ++ [r]) ({[ idx ]} ∪ seen_indices)
      else add_results v distances indices keep todo' results seen_indices
  end.

(** [initial_results]: the first [n_results] labels without the
    [-1] padding. *)
Definition initial_results_of (indices : list Z) (n_results : nat) : list Z :=
  filter (λ idx, idx ≠ (-1)%Z) (take n_results indices).

(** [search]. The related set is visited in the order [elements] gives;
    Python leaves the order of a [set] open. *)
Definition search (v : VectorStore) (query_embedding : list pyfloat)
    (n_results : nat) : result (list Hit) :=
  let query_np := to_float32 <$> query_embedding in
  '(distances, indices) ← flat_search (index v) query_np (n_results * 2);
  let initial_results := initial_results_of indices n_results in
  let related_indices := _get_related_chunks v initial_results in
  '(results, seen_indices) ←
    add_results v distances indices (λ _, true) initial_results [] ∅;
  '(results, seen_indices) ←
    add_results v distances indices
      (λ idx, bool_decide (idx ∈ initial_results))
      (elements related_indices) results seen_indices;
  Ok results.

(** [delete_collection]: the directory goes, the object stays. *)
Definition delete_collection (f : Faults) : M unit :=
  v ← get_self;
  m ← get_fs;
  if bool_decide (is_Some (m !! index_dir v)) then
    if rmtree_fails f then raise OSError
    else put_fs (rmtree (index_dir v) m)
  else mret ().

(** [clear_collection]. *)
Definition clear_collection (f : Faults) : M unit :=
  _create_index f;; _save_index f.

(** [analyze_collection] reads [metadata_list] only. *)
Definition analyze_collection (v : VectorStore) : Analyzer.Analysis :=
  Analyzer.analyze_collection (metadata_list v).

(** *** Notions used to state the properties *)

(** The vector [add_documents] stores for a document. *)
Definition vector_of (doc : Document) : list float32 :=
  to_float32 <$> embedding doc.

(** The object after the batch [docs] has been added to [v]. *)
Definition with_batch (v : VectorStore) (docs : list Document) : VectorStore :=
  set_metadata_list (metadata_list v ++ (entry_of <$> docs))
    (set_index {| dim := dim (index v);
                  xb := xb (index v) ++ (vector_of <$> docs) |} v).

(** The store holds exactly the chunks [log], position by position: the
    [i]-th vector and the [i]-th metadata entry both come from the
    [i]-th chunk. *)
Definition aligned (v : VectorStore) (log : list Document) : Prop :=
  xb (index v) = vector_of <$> log ∧ metadata_list v = entry_of <$> log.

(** A batch that [np.array] and [index.add] take: not empty, every
    embedding of the dimension [d] of the index. *)
Definition accepted (d : nat) (docs : list Document) : Prop :=
  docs ≠ [] ∧ Forall (λ doc, length (embedding doc) = d) docs.

#[export] Instance accepted_dec d docs : Decision (accepted d docs).
Proof. unfold accepted. apply _. Defined.

(** A caller making one [add_documents] call after the other on the same
    object, going on after an exception (as [process_uploaded_files] of
    src/app.py does). *)
Fixpoint run_adds (calls : list (Faults * list Document)) (s : St) : St :=
  match calls with
  | [] => s
  | (f, docs) :: calls' => run_adds calls' (add_documents f docs s).1
  end.

(** The chunks of the accepted batches, in call order. *)
Definition appended (d : nat) (calls : list (Faults * list Document))
  : list Document :=
  concat (filter (accepted d) (snd <$> calls)).

(** The content of [name.txt] in directory [p], if any. *)
Definition sidecar (m : gmap path Dir) (p : path) : option pystr :=
  m !! p ≫= name_txt.

(** [m'] has every [name.txt] of [m], with the same content. *)
Definition keeps_names (m m' : gmap path Dir) : Prop :=
  ∀ p t, sidecar m p = Some t → sidecar m' p = Some t.

(** Opening collections one after the other, whatever each call returns. *)
Fixpoint run_opens (opens : list (Faults * pystr)) (m : gmap path Dir)
  : gmap path Dir :=
  match opens with
  | [] => m
  | (f, name) :: opens' => run_opens opens' (new_VectorStore f name m).1
  end.

(** The object [_create_index] leaves, and the one [_load_index] leaves. *)
Definition created (name : pystr) (dir : path) : VectorStore :=
  {| collection_name := name; index_dir := dir; dimension := Some 1536;
     index := {| dim := 1536; xb := [] |}; metadata_list := [] |}.
Definition loaded (name : pystr) (dir : path) (ix : Index) (l : list Entry)
  : VectorStore :=
  {| collection_name := name; index_dir := dir; dimension := None;
     index := ix; metadata_list := l |}.

(** What [faiss] promises about the labels of a search on [n] vectors:
    each is a stored position or the padding [-1]. *)
Definition labels_valid (n : nat) (indices : list Z) : Prop :=
  Forall (λ i, i = (-1)%Z ∨ (0 ≤ i < Z.of_nat n)%Z) indices.

#[export] Instance labels_valid_dec n indices : Decision (labels_valid n indices).
Proof. unfold labels_valid. apply _. Defined.

(** [j] is the position [idx] itself or is recorded as one of its
    neighbours, for a position [idx] of the metadata list. *)
Definition related_to (v : VectorStore) (idx j : Z) : Prop :=
  (0 ≤ idx)%Z ∧
  ∃ e, metadata_list v !! Z.to_nat idx = Some e
       ∧ (j = idx ∨ j ∈ prev_chunks (metadata e)
          ∨ j ∈ next_chunks (metadata e)).

(** The result for the label [p.2] reported at distance [p.1]. *)
Definition hit_for (v : VectorStore) (p : distance * Z) (h : Hit) : Prop :=
  ∃ e, metadata_list v !! Z.to_nat p.2 = Some e
       ∧ h = {| hit_text := text e; hit_metadata := metadata e;
                hit_distance := p.1 |}.

(** The labels of a search without the padding. *)
Definition stored_labels (indices : list Z) : list Z :=
  filter (λ idx, idx ≠ (-1)%Z) indices.

End store.

Arguments related_to {float32} _ _ _.
Arguments hit_for {float32 distance} _ _ _.
Arguments vector_of {pyfloat float32} _ _.
Arguments aligned {pyfloat float32} _ _ _.
Arguments with_batch {pyfloat float32} _ _ _.
Arguments keeps_names {float32} _ _.
Arguments accepted {pyfloat} _ _.
Arguments run_adds {pyfloat float32} _ _ _.
Arguments appended {pyfloat} _ _.
Arguments sidecar {float32} _ _.
Arguments run_opens {float32} _ _.
Arguments created {float32} _ _.
Arguments loaded {float32} _ _ _ _.
Arguments dim {float32} _.
Arguments xb {float32} _.
Arguments ntotal {float32} _.
Arguments Build_Index {float32} _ _.
Arguments doc_text {pyfloat} _.
Arguments doc_metadata {pyfloat} _.
Arguments embedding {pyfloat} _.
Arguments Build_Document {pyfloat} _ _ _.
Arguments name_txt {float32} _.
Arguments index_faiss {float32} _.
Arguments metadata_pkl {float32} _.
Arguments Build_Dir {float32} _ _ _.
Arguments empty_dir {float32}.
Arguments collection_name {float32} _.
Arguments index_dir {float32} _.
Arguments dimension {float32} _.
Arguments index {float32} _.
Arguments metadata_list {float32} _.
Arguments Build_VectorStore {float32} _ _ _ _ _.
Arguments self {float32} _.
Arguments fs {float32} _.
Arguments Build_St {float32} _ _.
Arguments set_index {float32} _ _.
Arguments set_metadata_list {float32} _ _.
Arguments set_dimension {float32} _ _.
Arguments ensure_dir {float32} _ _.
Arguments mkdir_p {float32} _ _.
Arguments rmtree {float32} _ _.
Arguments write_name {float32} _ _.
Arguments write_index {float32} _ _.
Arguments write_metadata {float32} _ _.
Arguments name_exists {float32} _ _.
Arguments index_exists {float32} _ _.
Arguments metadata_exists {float32} _ _.
Arguments _save_index {float32} _ _.
Arguments _create_index {float32} _ _.
Arguments _load_index {float32} _.
Arguments __init__ {float32} _ _ _.
Arguments blank {float32}.
Arguments new_VectorStore {float32} _ _ _.
Arguments np_array {pyfloat float32} _ _.
Arguments index_add {float32} _ _.
Arguments entry_of {pyfloat} _.
Arguments add_documents {pyfloat float32} _ _ _ _.
Arguments _get_related_chunks {float32} _ _.
Arguments hit_text {distance} _.
Arguments hit_metadata {distance} _.
Arguments hit_distance {distance} _.
Arguments Build_Hit {distance} _ _ _.
Arguments make_result {float32 distance} _ _ _ _.
Arguments add_results {float32 distance} _ _ _ _ _ _ _.
Arguments search {pyfloat float32 distance} _ _ _ _ _.
Arguments delete_collection {float32} _ _.
Arguments clear_collection {float32} _ _.
Arguments analyze_collection {float32} _.

End Store.

(** ** Embedder: [DocumentEmbedder.split_text] (src/embedder.py) *)

Module Embedder.

(** [CONTEXT_WINDOW] of src/config.py. *)
Definition CONTEXT_WINDOW : Z := 2.

(** [list(range(a, b))]. *)
Definition py_range (a b : Z) : list Z :=
  (λ i : nat, (a + Z.of_nat i)%Z) <$> seq 0 (Z.to_nat (b - a)).

Section split_text.
(** [RecursiveCharacterTextSplitter.split_text], of langchain. *)
Variable text_splitter : pystr → list pystr.

(** [split_text(text, metadata)], for the [metadata] dictionary
    [process_document] passes: the path, name and type of the file. Each
    chunk records its position in the file, the number of chunks, and the
    positions of up to [CONTEXT_WINDOW] chunks before and after it. *)
Definition split_text (text : pystr) (fpath fname ftype : pystr)
  : list Entry :=
  let texts := text_splitter text in
  imap (λ (n : nat) text_chunk,
          let i := Z.of_nat n in
          let len_texts := Z.of_nat (length texts) in
          {| text := text_chunk;
             metadata :=
               {| file_path := fpath; file_name := fname; file_type := ftype;
                  chunk_id := i;
                  chunk_total := len_texts;
                  prev_chunks := py_range (Z.max 0 (i - CONTEXT_WINDOW)) i;
                  next_chunks :=
                    py_range (i + 1)
                      (Z.min len_texts (i + CONTEXT_WINDOW + 1));
                  file_chunk_index := i |} |})
       texts.

End split_text.

(** A splitter for concrete runs: one chunk per character. *)
Definition one_char_chunks (text : pystr) : list pystr := (λ c, [c]) <$> text.

End Embedder.

(** ** ZFlat: an exact flat index over integer coordinates

    The store is parametric in the index search; this instance runs it on
    concrete collections. Labels are ranked by squared L2 distance, ties
    by insertion order, and padded with [-1] when fewer than [k] vectors
    are stored, as [faiss.IndexFlatL2] does. *)

Module ZFlat.
Import Store.
Local Open Scope Z_scope.

Definition l2 (q x : list Z) : Z :=
  foldr Z.add 0 (zip_with (λ a b, (a - b) * (a - b)) q x).

Definition closer (a b : Z * Z) : Prop :=
  a.1 < b.1 ∨ (a.1 = b.1 ∧ a.2 ≤ b.2).

#[export] Instance closer_dec a b : Decision (closer a b).
Proof. unfold closer. apply _. Defined.

Definition flat_search (ix : Index Z) (q : list Z) (k : nat)
  : result (list (option Z) * list Z) :=
  if decide (length q = dim ix ∧ (0 < k)%nat) then
    let scored := imap (λ i x, (l2 q x, Z.of_nat i)) (xb ix) in
    let top := take k (merge_sort closer scored) in
    let pad := (k - length top)%nat in
    Ok ((Some ∘ fst <$> top) ++ replicate pad None,
        (snd <$> top) ++ replicate pad (-1))
  else Raise AssertionError.

Definition search := Store.search (@id Z) flat_search.
Definition add_documents := @Store.add_documents Z Z id.

(** A document of a two-dimensional collection. *)
Definition doc (fname : string) (i : Z) (prev next : list Z) (x y : Z)
  : Document Z :=
  {| doc_text := py fname ++ [Z.to_N (48 + i)];
     doc_metadata := {| file_path := py fname; file_name := py fname;
                        file_type := py "Text"; chunk_id := i;
                        chunk_total := 5; prev_chunks := prev;
                        next_chunks := next; file_chunk_index := i |};
     embedding := [x; y] |}.

(** A store on a two-dimensional index, as loaded from disk. *)
Definition store_of (docs : list (Document Z)) : VectorStore Z :=
  {| collection_name := py "db"; index_dir := [py "index"; py "db"];
     dimension := None;
     index := {| dim := 2; xb := embedding <$> docs |};
     metadata_list := entry_of <$> docs |}.

(** One file split into five chunks with window 2, laid out on a line. *)
Definition five_chunks : list (Document Z) :=
  [doc "f" 0 [] [1; 2] 0 0;
   doc "f" 1 [0] [2; 3] 10 0;
   doc "f" 2 [0; 1] [3; 4] 20 0;
   doc "f" 3 [1; 2] [4] 30 0;
   doc "f" 4 [2; 3] [] 40 0].

(** The directory of the collection [db], and three states of it: with a
    hand-edited [name.txt], with the index file only, and with one vector
    but no metadata entry. *)
Definition db_dir : path := [py "index"; py "db"].

Definition one_vector : Index Z := {| dim := 2; xb := [[1; 2]] |}.

Definition edited_name : gmap path (Dir Z) :=
  {[ db_dir := {| name_txt := Some (py "my database");
                  index_faiss := None; metadata_pkl := None |} ]}.

Definition only_index : gmap path (Dir Z) :=
  {[ db_dir := {| name_txt := Some (py "db");
                  index_faiss := Some (Valid one_vector);
                  metadata_pkl := None |} ]}.

Definition mismatched : gmap path (Dir Z) :=
  {[ db_dir := {| name_txt := Some (py "db");
                  index_faiss := Some (Valid one_vector);
                  metadata_pkl := Some (Valid []) |} ]}.

(** An empty two-dimensional collection whose directory exists. *)
Definition empty_db : St Z :=
  {| self := store_of []; fs := {[ db_dir := empty_dir ]} |}.

(** The environment refuses to write the metadata file. *)
Definition metadata_disk_full : Faults :=
  {| mkdir_fails := false; name_write_fails := false;
     index_write_fails := false; metadata_write_fails := true;
     rmtree_fails := false |}.

(** The environment refuses to remove a directory. *)
Definition rmtree_refused : Faults :=
  {| mkdir_fails := false; name_write_fails := false;
     index_write_fails := false; metadata_write_fails := false;
     rmtree_fails := true |}.

(** An empty two-dimensional collection with both files saved. *)
Definition saved_empty : St Z :=
  {| self := store_of [];
     fs := {[ db_dir := {| name_txt := Some (py "db");
                           index_faiss := Some (Valid {| dim := 2; xb := [] |});
                           metadata_pkl := Some (Valid []) |} ]} |}.

(** The directory of [db] with an index file that cannot be read. *)
Definition unreadable_index : gmap path (Dir Z) :=
  {[ db_dir := {| name_txt := Some (py "db"); index_faiss := Some Corrupt;
                  metadata_pkl := Some (Valid []) |} ]}.

(** A collection as [_create_index] leaves it, of dimension 1536. *)
Definition fresh_db : St Z :=
  {| self := created (py "db") db_dir; fs := {[ db_dir := empty_dir ]} |}.

End ZFlat.
(** * Properties *)

(** ** Insertion-ordered dictionaries *)

Section dict_facts.
Context {K V : Type} `{EqDecision K}.
Implicit Types (k : K) (v : V) (d : list (K * V)).

Lemma dict_get_None k d : dict_get k d = None ↔ k ∉ dict_keys d.
Proof.
  unfold dict_keys. induction d as [|[k' v'] d IH]; simpl.
  - split; [intros _; apply not_elem_of_nil | done].
  - rewrite not_elem_of_cons. case_decide; [split; [done | tauto] |].
    rewrite IH. tauto.
Qed.

Lemma dict_keys_set_present k v v0 d :
  dict_get k d = Some v0 → dict_keys (dict_set k v d) = dict_keys d.
Proof.
  unfold dict_keys. induction d as [|[k' v'] d IH]; simpl; [done|].
  case_decide; simpl; [by subst | intros; f_equal; auto].
Qed.

Lemma dict_keys_set_absent k v d :
  dict_get k d = None → dict_keys (dict_set k v d) = dict_keys d ++ [k].
Proof.
  unfold dict_keys. induction d as [|[k' v'] d IH]; simpl; [done|].
  case_decide; simpl; [done | intros; f_equal; auto].
Qed.

Lemma dict_values_set_present (f : V → nat) k v v0 d :
  dict_get k d = Some v0 →
  sum_list (f <$> dict_values (dict_set k v d)) + f v0
  = sum_list (f <$> dict_values d) + f v.
Proof.
  unfold dict_values. induction d as [|[k' v'] d IH]; csimpl; [done|].
  case_decide; csimpl.
  - intros [= ->]. lia.
  - intros Hg. specialize (IH Hg). lia.
Qed.

Lemma dict_values_set_absent (f : V → nat) k v d :
  dict_get k d = None →
  sum_list (f <$> dict_values (dict_set k v d))
  = sum_list (f <$> dict_values d) + f v.
Proof.
  unfold dict_values. induction d as [|[k' v'] d IH]; csimpl; [intros; lia|].
  case_decide; csimpl; [done|]. intros Hg. specialize (IH Hg). lia.
Qed.

End dict_facts.

(** ** Analyzer *)

Module AnalyzerFacts.
Import Analyzer.

Lemma py_sum_sum_list l : py_sum l = sum_list l.
Proof.
  unfold py_sum. rewrite <- (Nat.add_0_l (sum_list l)). generalize 0.
  induction l as [|x l IH]; intros a; simpl; [lia|]. rewrite IH. lia.
Qed.

Lemma sum_list_snoc l x : sum_list (l ++ [x]) = sum_list l + x.
Proof. induction l as [|y l IH]; csimpl; lia. Qed.

Lemma analyze_loop_snoc l doc :
  analyze_loop (l ++ [doc]) = analyze_step (analyze_loop l) doc.
Proof. unfold analyze_loop. by rewrite fold_left_app. Qed.

Lemma analyze_loop_inv l : loop_inv l (analyze_loop l).
Proof.
  induction l as [|doc l IH] using rev_ind.
  - split; simpl; try done. apply NoDup_nil_2.
  - rewrite analyze_loop_snoc. destruct IH as [Hlen Hnd Hkeys Htot Hcnt].
    set (acc := analyze_loop l) in *.
    split; csimpl.
    + unfold lengths in *. rewrite fmap_app. by rewrite Hlen.
    + destruct (dict_get _ (file_stats acc)) as [s0|] eqn:Hg.
      * by rewrite (dict_keys_set_present _ _ s0).
      * rewrite dict_keys_set_absent by done.
        apply NoDup_app. split_and!; [done | | apply NoDup_singleton].
        intros k Hk ->%list_elem_of_singleton.
        by apply dict_get_None in Hg.
    + intros k. unfold names in *. rewrite fmap_app, elem_of_app. simpl.
      rewrite list_elem_of_singleton, <- Hkeys.
      destruct (dict_get _ (file_stats acc)) as [s0|] eqn:Hg.
      * rewrite (dict_keys_set_present _ _ s0) by done.
        split; [auto | intros [?| ->]; [done|]].
        apply dec_stable. intros Hn. apply dict_get_None in Hn. congruence.
      * rewrite dict_keys_set_absent by done.
        rewrite elem_of_app, list_elem_of_singleton. done.
    + unfold lengths in *. rewrite fmap_app. csimpl. rewrite sum_list_snoc.
      rewrite <- Htot.
      destruct (dict_get _ (file_stats acc)) as [s0|] eqn:Hg.
      * pose proof (dict_values_set_present total_length _
          {| chunk_count := chunk_count s0 + 1;
             total_length := total_length s0 + length (text doc);
             stat_file_type := stat_file_type s0 |} s0 _ Hg) as Hs.
        simpl in Hs. lia.
      * rewrite dict_values_set_absent by done. simpl. lia.
    + rewrite length_app, length_app. simpl. lia.
Qed.

Lemma total_files_distinct l :
  total_files (analyze_collection l) = length (remove_dups (names l)).
Proof.
  unfold analyze_collection; simpl.
  destruct (analyze_loop_inv l) as [_ Hnd Hkeys _ _].
  change (length (file_stats (analyze_loop l)))
    with (length (file_stats (analyze_loop l))).
  rewrite <- (length_fmap fst (file_stats (analyze_loop l))).
  apply Permutation_length, NoDup_Permutation; [done | apply NoDup_remove_dups |].
  intros k. rewrite elem_of_remove_dups. apply Hkeys.
Qed.

(** C6 (as amended). [analyze_collection] reports the number of entries,
    the number of distinct file names and the sum of the text lengths; the
    chunk-length values are the text lengths in list order and their median
    is the element at index [n / 2] of the sorted lengths, with no
    averaging. On the fixture (A: 10, 20, 30; B: 5) it reports 4 chunks, 2
    files, 65 characters and min/max/median 5/30/20. *)
Theorem analyze_collection_totals_and_median (l : list Entry) :
  let a := analyze_collection l in
  total_chunks a = length l
  ∧ total_files a = length (remove_dups (names l))
  ∧ total_length_all a = sum_list (lengths l)
  ∧ dist_values (dist_chunk_lengths a) = lengths l
  ∧ (∃ s, Sorted (≤) s ∧ s ≡ₚ lengths l
          ∧ dist_median (dist_chunk_lengths a)
            = default 0 (s !! (length l `div` 2)))
  ∧ (let b := analyze_collection fixture in
     total_chunks b = 4 ∧ total_files b = 2 ∧ total_length_all b = 65
     ∧ dist_min (dist_chunk_lengths b) = 5
     ∧ dist_max (dist_chunk_lengths b) = 30
     ∧ dist_median (dist_chunk_lengths b) = 20).
Proof.
  intros a. pose proof (analyze_loop_inv l) as [Hlen _ _ Htot _].
  split_and!.
  - done.
  - apply total_files_distinct.
  - subst a. unfold analyze_collection; simpl.
    by rewrite py_sum_sum_list.
  - done.
  - exists (sorted (lengths l)). split_and!.
    + apply Sorted_merge_sort. intros x y. lia.
    + apply merge_sort_Permutation.
    + subst a. unfold analyze_collection, distribution; cbn [dist_median dist_chunk_lengths].
      rewrite Hlen. f_equal. f_equal. f_equal. apply length_fmap.
  - by vm_compute.
Qed.

(** C6, as stated, fails on its own fixture: the median reported for the
    lengths 10, 20, 30, 5 is 20, the element at index 2 of the sorted
    lengths, not 15. *)
Lemma analyze_fixture_median_is_not_15 :
  let b := analyze_collection fixture in
  ¬ (total_chunks b = 4 ∧ total_files b = 2 ∧ total_length_all b = 65
     ∧ dist_min (dist_chunk_lengths b) = 5
     ∧ dist_max (dist_chunk_lengths b) = 30
     ∧ dist_median (dist_chunk_lengths b) = 15).
Proof. vm_compute. intros (_ & _ & _ & _ & _ & H). discriminate H. Qed.

(** C7. The sequence under [file_chunk_counts] has one entry per chunk,
    the running count of its file, and not one entry per file: on the
    fixture it is 1, 2, 3, 1 with median 2, where the per-file counts
    3, 1 have median 3. *)
Theorem file_chunk_counts_has_running_counts :
  (∀ l, length (dist_values (dist_file_chunk_counts (analyze_collection l)))
        = length l)
  ∧ dist_values (dist_file_chunk_counts (analyze_collection fixture))
    = [1; 2; 3; 1]
  ∧ dist_median (dist_file_chunk_counts (analyze_collection fixture)) = 2
  ∧ per_file_chunk_counts fixture = [3; 1]
  ∧ dist_median (distribution (per_file_chunk_counts fixture)) = 3.
Proof.
  split; [|by vm_compute].
  intros l. by destruct (analyze_loop_inv l).
Qed.

End AnalyzerFacts.

(** ** NameCodec *)

Module NameCodecFacts.
Import NameCodec.
Local Open Scope N_scope.

(** Resolve the test at the head of the goal from the arithmetic context. *)
Ltac head_test :=
  lazymatch goal with
  | |- (if decide ?P is left _ then _ else _) = _ =>
      first [ rewrite (decide_True (P:=P)) by lia
            | rewrite (decide_False (P:=P)) by lia ]
  | |- (if bool_decide ?P then _ else _) = _ =>
      first [ rewrite (bool_decide_eq_true_2 P) by (repeat case_decide; lia)
            | rewrite (bool_decide_eq_false_2 P) by (repeat case_decide; lia) ]
  end.

(** Unfold [utf8_decode] on its first byte only. *)
Ltac decode_once :=
  lazymatch goal with
  | |- utf8_decode (?b :: ?r) = _ =>
      let t := fresh "tail" in let E := fresh "E" in
      remember r as t eqn:E; cbn [utf8_decode]; unfold in_range, cont;
      subst t; cbv beta iota zeta; repeat (head_test; cbv beta iota zeta)
  end.

Ltac split64 c q r :=
  let Hq := fresh "Hq" in let Hr := fresh "Hr" in
  pose proof (N.div_mod' c 64);
  pose proof (N.mod_lt c 64 ltac:(done));
  remember (c / 64) as q eqn:Hq; remember (c mod 64) as r eqn:Hr;
  clear Hq Hr.

Lemma div_4096 c : c / 4096 = c / 64 / 64.
Proof. by rewrite N.Div0.div_div. Qed.

Lemma div_262144 c : c / 262144 = c / 64 / 64 / 64.
Proof. by rewrite !N.Div0.div_div. Qed.

Lemma utf8_encode_cp_decode c :
  scalar_value c →
  ∃ bs, utf8_encode_cp c = Ok bs
        ∧ Forall (λ b, b < 256) bs
        ∧ ∀ rest, utf8_decode (bs ++ rest) = c :: utf8_decode rest.
Proof.
  unfold scalar_value, utf8_encode_cp. intros Hc.
  rewrite div_262144, !div_4096.
  repeat case_decide; try lia; eexists; (split; [reflexivity|]).
  - split; [repeat constructor; lia|]. intros rest.
    cbn [app]. decode_once. done.
  - split64 c q r.
    split; [repeat constructor; lia|]. intros rest.
    cbn [app]. decode_once. f_equal. lia.
  - split64 c q r. split64 q q' r'.
    split; [repeat constructor; lia|]. intros rest.
    cbn [app]. decode_once. f_equal. lia.
  - split64 c q r. split64 q q' r'. split64 q' q'' r''.
    split; [repeat constructor; lia|]. intros rest.
    cbn [app]. decode_once. f_equal. lia.
Qed.

Lemma utf8_encode_decode s :
  Forall scalar_value s →
  ∃ bs, utf8_encode s = Ok bs ∧ Forall (λ b, b < 256) bs ∧ utf8_decode bs = s.
Proof.
  induction 1 as [|c s Hc _ (bs' & Hbs' & Hlt' & Hdec')].
  - by exists [].
  - destruct (utf8_encode_cp_decode c Hc) as (bs & Hbs & Hlt & Hdec).
    exists (bs ++ bs'). cbn [utf8_encode]. rewrite Hbs, Hbs'.
    split_and!; [done | by apply Forall_app | ].
    by rewrite Hdec, Hdec'.
Qed.

Lemma utf8_encode_cp_scalar c bs : utf8_encode_cp c = Ok bs → scalar_value c.
Proof.
  unfold utf8_encode_cp, scalar_value.
  repeat case_decide; intros; simplify_eq; lia.
Qed.

Lemma utf8_encode_scalar s bs : utf8_encode s = Ok bs → Forall scalar_value s.
Proof.
  revert bs. induction s as [|c s IH]; intros bs; [by constructor|].
  cbn [utf8_encode].
  destruct (utf8_encode_cp c) as [b|] eqn:Hc; [|done].
  destruct (utf8_encode s) as [b'|] eqn:Hs; [|done].
  intros _. constructor; [by eapply utf8_encode_cp_scalar | by eapply IH].
Qed.

(** *** Percent-encoding *)

Lemma hexval_hex_upper n : n < 16 → hexval (hex_upper n) = Some n.
Proof.
  intros Hn. unfold hexval, hex_upper, in_range.
  case_decide; repeat case_bool_decide; try lia; f_equal; lia.
Qed.

Lemma always_safe_spec b :
  always_safe b = true ↔
  (65 ≤ b ≤ 90) ∨ (97 ≤ b ≤ 122) ∨ (48 ≤ b ≤ 57)
  ∨ b = 95 ∨ b = 46 ∨ b = 45 ∨ b = 126.
Proof.
  unfold always_safe, in_range.
  rewrite !orb_true_iff, !bool_decide_eq_true. tauto.
Qed.

Lemma hex_upper_safe n : n < 16 → always_safe (hex_upper n) = true.
Proof.
  intros Hn. apply always_safe_spec. unfold hex_upper. case_decide; lia.
Qed.

Lemma unquote_to_bytes_quote_byte b rest :
  b < 256 →
  unquote_to_bytes (quote_byte b ++ rest) = b :: unquote_to_bytes rest.
Proof.
  intros Hb. unfold quote_byte.
  destruct (always_safe b) eqn:Hs.
  - apply always_safe_spec in Hs. cbn [app unquote_to_bytes].
    rewrite decide_False; [done | unfold percent; lia].
  - pose proof (N.div_mod' b 16). pose proof (N.mod_lt b 16 ltac:(done)).
    assert (b / 16 < 16) by (apply N.Div0.div_lt_upper_bound; lia).
    cbn [app unquote_to_bytes]. rewrite decide_True by done.
    rewrite !hexval_hex_upper by done. f_equal. lia.
Qed.

Lemma unquote_to_bytes_quote bs :
  Forall (λ b, b < 256) bs →
  unquote_to_bytes (concat (quote_byte <$> bs)) = bs.
Proof.
  induction 1 as [|b bs Hb _ IH]; [done|]. csimpl.
  by rewrite unquote_to_bytes_quote_byte, IH.
Qed.

Lemma quote_byte_chars b : b < 256 → Forall quoted_char (quote_byte b).
Proof.
  intros Hb. unfold quote_byte, quoted_char.
  destruct (always_safe b) eqn:Hs.
  { apply Forall_singleton. by left. }
  pose proof (N.mod_lt b 16 ltac:(done)).
  assert (b / 16 < 16) by (apply N.Div0.div_lt_upper_bound; lia).
  apply Forall_cons; split; [by right|].
  apply Forall_cons; split; [left; by apply hex_upper_safe|].
  apply Forall_singleton. left; by apply hex_upper_safe.
Qed.

Lemma quoted_char_ascii c : quoted_char c → c < 128.
Proof.
  unfold quoted_char, percent. rewrite always_safe_spec. lia.
Qed.

Lemma unquote_parts_ascii s run :
  Forall (λ c, c < 128) s → unquote_parts s run = unquote_run (run ++ s).
Proof.
  intros Hs. revert run.
  induction Hs as [|c s Hc _ IH]; intros run; cbn [unquote_parts].
  - by rewrite app_nil_r.
  - rewrite decide_True by done. by rewrite IH, <- app_assoc.
Qed.

Lemma unquote_run_plain s :
  Forall (λ c, c < 128) s → percent ∉ s → unquote_run s = s.
Proof.
  unfold unquote_run. induction 1 as [|c s Hc _ IH]; [done|].
  rewrite not_elem_of_cons. intros [Hne Hnin].
  cbn [unquote_to_bytes]. rewrite decide_False by done.
  cbn [utf8_decode]. rewrite decide_True by done. by rewrite IH.
Qed.

Lemma unquote_ascii s :
  Forall (λ c, c < 128) s → unquote s = unquote_run s.
Proof.
  intros Hs. unfold unquote. case_decide.
  - by rewrite unquote_parts_ascii.
  - by rewrite unquote_run_plain.
Qed.

Lemma quote_unquote name :
  Forall scalar_value name →
  ∃ s, quote name = Ok s ∧ Forall quoted_char s ∧ unquote s = name.
Proof.
  intros (bs & Hbs & Hlt & Hdec)%utf8_encode_decode.
  exists (concat (quote_byte <$> bs)). unfold quote. rewrite Hbs.
  assert (Forall quoted_char (concat (quote_byte <$> bs))) as Hq.
  { apply Forall_concat, Forall_fmap. eapply Forall_impl; [exact Hlt|].
    intros b Hb. by apply quote_byte_chars. }
  split_and!; [done | done |].
  rewrite unquote_ascii.
  - unfold unquote_run. by rewrite unquote_to_bytes_quote.
  - eapply Forall_impl; [exact Hq|]. apply quoted_char_ascii.
Qed.

Lemma quote_inj n1 n2 s : quote n1 = Ok s → quote n2 = Ok s → n1 = n2.
Proof.
  intros H1 H2.
  assert (∀ n, quote n = Ok s → unquote s = n) as Hu.
  { intros n Hn. assert (Forall scalar_value n) as Hsc.
    { unfold quote in Hn. destruct (utf8_encode n) eqn:He; [|done].
      by eapply utf8_encode_scalar. }
    destruct (quote_unquote n Hsc) as (s' & Hs' & _ & Hun). congruence. }
  by rewrite <- (Hu n1 H1), <- (Hu n2 H2).
Qed.

Lemma quoted_path_segment name s :
  quote name = Ok s → Forall quoted_char s → unquote s = name →
  name ≠ [] → name ≠ py "." → name ≠ py ".." → path_segment s.
Proof.
  intros Hq Hch Hun Hn0 Hn1 Hn2. unfold path_segment.
  assert (∀ c, c ∈ s → quoted_char c) as Hin by by apply Forall_forall.
  split_and!.
  - intros ->. by apply Hn0.
  - intros ->. apply Hn1. by rewrite <- Hun.
  - intros ->. apply Hn2. by rewrite <- Hun.
  - intros Hc%Hin. revert Hc. unfold quoted_char, percent.
    rewrite always_safe_spec. lia.
  - intros Hc%Hin. revert Hc. unfold quoted_char, percent.
    rewrite always_safe_spec. lia.
  - intros Hc%Hin. revert Hc. unfold quoted_char, percent.
    rewrite always_safe_spec. lia.
Qed.

(** C8 (as amended). On names made of Unicode scalar values the encoding
    is defined, emits only letters, digits, [_.-~] and [%] (the
    unreserved characters stand for themselves, every other byte of the
    UTF-8 form is a [%XX] escape), is a single path segment for every
    name but the empty one, [.] and [..], is undone by
    [get_original_db_name], and no other name has the same encoding. *)
Theorem quote_injective_and_decodable (name : pystr) :
  Forall scalar_value name →
  ∃ s, quote name = Ok s
       ∧ Forall quoted_char s
       ∧ (name ≠ [] → name ≠ py "." → name ≠ py ".." → path_segment s)
       ∧ get_original_db_name s = name
       ∧ ∀ name', quote name' = Ok s → name' = name.
Proof.
  intros Hsc. destruct (quote_unquote name Hsc) as (s & Hq & Hch & Hun).
  exists s. split_and!; [done | done | | done |].
  - by apply quoted_path_segment.
  - intros name' Hq'. by eapply quote_inj.
Qed.

(** The name [a/b c] followed by U+3042 and U+1F600. *)
Lemma quote_injective_and_decodable_witness :
  Forall scalar_value (py "a/b c" ++ [0x3042; 0x1F600])
  ∧ ∃ s, quote (py "a/b c" ++ [0x3042; 0x1F600]) = Ok s
         ∧ Forall quoted_char s
         ∧ get_original_db_name s = py "a/b c" ++ [0x3042; 0x1F600].
Proof.
  assert (Forall scalar_value (py "a/b c" ++ [0x3042; 0x1F600])) as Hsc.
  { apply (bool_decide_eq_true_1 _). vm_compute. reflexivity. }
  split; [exact Hsc|].
  destruct (quote_injective_and_decodable _ Hsc) as (s & Hq & Hch & _ & Hun & _).
  exists s. split; [exact Hq|]. split; [exact Hch | exact Hun].
Defined.

(** C8, as stated, fails on the name [..]: its encoding is [..] itself,
    which is not a path segment but the parent of [index/]; and the letter
    [a] is exempt from percent-encoding, as every unreserved character
    is. *)
Lemma quote_dot_dot_is_not_a_segment :
  quote (py "..") = Ok (py "..")
  ∧ ¬ path_segment (py "..")
  ∧ Store.index_dir_of (py "..") = []
  ∧ quote (py "a") = Ok (py "a").
Proof.
  split_and!; [by vm_compute | | by vm_compute | by vm_compute].
  intros (_ & _ & H & _). by apply H.
Qed.

End NameCodecFacts.

(** ** Store *)

Module StoreFacts.
Import Store.

Section store_facts.
Context {pyfloat float32 distance : Type}.
Context (to_float32 : pyfloat → float32).
Context (flat_search :
  Index float32 → list float32 → nat → result (list distance * list Z)).
Implicit Types (v : VectorStore float32) (s : St float32)
  (m : gmap path (Dir float32)) (f : Faults) (docs : list (Document pyfloat)).

(** *** [add_documents] *)

Lemma save_index_self f s : self (_save_index f s).1 = self s.
Proof.
  unfold _save_index, mbind, M_bind, get_self, get_fs, raise, put_fs.
  destruct (fs s !! index_dir (self s)); [|done].
  destruct (index_write_fails f); [done|]. simpl.
  by destruct (metadata_write_fails f).
Qed.

Lemma append_metadata docs v :
  foldl (λ v doc, set_metadata_list (metadata_list v ++ [entry_of doc]) v)
        v docs
  = set_metadata_list (metadata_list v ++ (entry_of <$> docs)) v.
Proof.
  revert v. induction docs as [|doc docs IH]; intros v; csimpl.
  - rewrite app_nil_r. by destruct v.
  - rewrite IH. unfold set_metadata_list; simpl. by rewrite <- app_assoc.
Qed.

Lemma np_array_accepted d docs :
  accepted d docs →
  np_array to_float32 (embedding <$> docs) = Ok (vector_of to_float32 <$> docs).
Proof.
  intros [Hne Hall]. destruct docs as [|doc docs]; [done|].
  unfold np_array.
  assert (forallb (λ r', bool_decide (length r' = length (embedding doc)))
            (embedding <$> doc :: docs) = true) as Hf.
  { apply forallb_forall. intros r Hr%list_elem_of_In.
    apply list_elem_of_fmap in Hr as (doc' & -> & Hin).
    rewrite Forall_forall in Hall. apply bool_decide_eq_true.
    by rewrite (Hall _ Hin), (Hall doc) by left. }
  change (embedding <$> doc :: docs)
    with (embedding doc :: (embedding <$> docs)) in *.
  cbv beta iota. rewrite Hf. f_equal. change (embedding doc :: (embedding <$> docs))
    with (embedding <$> doc :: docs).
  by rewrite <- list_fmap_compose.
Qed.

Lemma index_add_accepted (ix : Index float32) docs :
  accepted (dim ix) docs →
  index_add ix (vector_of to_float32 <$> docs)
  = Ok {| dim := dim ix; xb := xb ix ++ (vector_of to_float32 <$> docs) |}.
Proof.
  intros [Hne Hall]. destruct docs as [|doc docs]; [done|].
  apply Forall_cons in Hall as [Hd _].
  unfold index_add. cbn [fmap list_fmap].
  rewrite decide_True; [done|]. unfold vector_of. by rewrite length_fmap.
Qed.

Lemma add_documents_accepted f docs s :
  accepted (dim (index (self s))) docs →
  add_documents to_float32 f docs s
  = _save_index f {| self := with_batch to_float32 (self s) docs; fs := fs s |}.
Proof.
  intros Hacc.
  unfold add_documents, mbind, M_bind, lift, get_self, put_self.
  rewrite (np_array_accepted _ _ Hacc), (index_add_accepted _ _ Hacc).
  cbn [self fs]. by rewrite append_metadata.
Qed.

Lemma add_documents_rejected f docs s :
  ¬ accepted (dim (index (self s))) docs →
  (add_documents to_float32 f docs s).1 = s.
Proof.
  intros Hrej.
  unfold add_documents, mbind, M_bind, lift, get_self, put_self.
  destruct (np_array to_float32 (embedding <$> docs)) as [rows|] eqn:Hnp;
    [|done].
  destruct (index_add (index (self s)) rows) as [ix|] eqn:Hadd; [|done].
  exfalso. apply Hrej.
  destruct docs as [|doc docs]; [by simplify_eq/=|].
  unfold np_array in Hnp. cbn [fmap list_fmap] in Hnp.
  destruct (forallb _ _) eqn:Hf in Hnp; [|done]. simplify_eq.
  unfold index_add in Hadd. cbn [fmap list_fmap] in Hadd.
  case_decide as Hd; [|done]. rewrite length_fmap in Hd.
  split; [done|]. apply Forall_forall. intros doc' Hin.
  rewrite forallb_forall in Hf.
  specialize (Hf (embedding doc')). apply bool_decide_eq_true in Hf.
  - by rewrite Hf.
  - apply list_elem_of_In. change (embedding doc' ∈ embedding <$> doc :: docs).
    by apply list_elem_of_fmap_2.
Qed.

Lemma with_batch_aligned v log docs :
  aligned to_float32 v log → aligned to_float32 (with_batch to_float32 v docs) (log ++ docs).
Proof.
  intros [Hx Hm]. split; simpl; rewrite fmap_app; congruence.
Qed.

Lemma run_adds_aligned calls s log :
  aligned to_float32 (self s) log →
  aligned to_float32 (self (run_adds to_float32 calls s))
    (log ++ appended (dim (index (self s))) calls).
Proof.
  revert s log. induction calls as [|[f docs] calls IH]; intros s log Hal.
  - unfold appended. simpl. by rewrite app_nil_r.
  - cbn [run_adds]. unfold appended. cbn [fmap list_fmap snd].
    rewrite filter_cons.
    destruct (decide (accepted (dim (index (self s))) docs)) as [Hacc|Hrej].
    + rewrite add_documents_accepted by done.
      cbn [concat]. rewrite app_assoc.
      specialize (IH ((_save_index f
                     {| self := with_batch to_float32 (self s) docs; fs := fs s |}).1)
                   (log ++ docs)).
      rewrite save_index_self in IH. apply IH.
      by apply with_batch_aligned.
    + rewrite add_documents_rejected by done. by apply IH.
Qed.



Lemma save_index_raises f s e :
  (_save_index f s).2 = Raise e →
  index_write_fails f = true ∨ metadata_write_fails f = true
  ∨ fs s !! index_dir (self s) = None.
Proof.
  unfold _save_index, mbind, M_bind, get_self, get_fs, raise, put_fs.
  destruct (fs s !! index_dir (self s)); [|by auto].
  destruct (index_write_fails f); [by auto|]. cbn [self fs].
  destruct (metadata_write_fails f); [by auto|]. done.
Qed.

(** C4 (as amended). When a batch is accepted and the call raises, it is
    the save that failed (a refused write, or the directory is gone), and
    the object keeps the batch: the vectors and the metadata entries of the
    batch stay appended. Nothing is rolled back. *)
Theorem add_documents_failed_save_keeps_batch f
    (docs : list (Document pyfloat)) s (e : exn) :
  accepted (dim (index (self s))) docs →
  (add_documents to_float32 f docs s).2 = Raise e →
  let v' := self (add_documents to_float32 f docs s).1 in
  (index_write_fails f = true ∨ metadata_write_fails f = true
   ∨ fs s !! index_dir (self s) = None)
  ∧ xb (index v') = xb (index (self s)) ++ (vector_of to_float32 <$> docs)
  ∧ metadata_list v'
    = metadata_list (self s) ++ (entry_of <$> docs).
Proof.
  intros Hacc Hr v'. subst v'.
  rewrite add_documents_accepted in Hr |- * by done.
  rewrite save_index_self. split; [|done].
  by apply save_index_raises in Hr.
Qed.

(** *** The file system *)

Lemma keeps_names_refl m : keeps_names m m.
Proof. by intros p t. Qed.

Lemma keeps_names_trans m1 m2 m3 :
  keeps_names m1 m2 → keeps_names m2 m3 → keeps_names m1 m3.
Proof. intros H12 H23 p t Hp. by apply H23, H12. Qed.

Lemma ensure_dir_lookup_Some q m p (d : Dir float32) :
  m !! p = Some d → ensure_dir q m !! p = Some d.
Proof.
  intros Hp. unfold ensure_dir. destruct (m !! q) eqn:Hq; [done|].
  rewrite lookup_insert_ne; [done | congruence].
Qed.

Lemma ensure_dir_lookup_same q m :
  ensure_dir q m !! q = Some (default empty_dir (m !! q)).
Proof.
  unfold ensure_dir. destruct (m !! q) eqn:Hq; [done|].
  by rewrite lookup_insert_eq.
Qed.

Lemma mkdir_p_lookup_Some q m p (d : Dir float32) :
  m !! p = Some d → mkdir_p q m !! p = Some d.
Proof. intros Hp. unfold mkdir_p. by do 3 apply ensure_dir_lookup_Some. Qed.

Lemma mkdir_p_lookup_same q m :
  mkdir_p q m !! q = Some (default empty_dir (m !! q)).
Proof.
  unfold mkdir_p. rewrite ensure_dir_lookup_same.
  destruct (m !! q) as [d|] eqn:Hq.
  - by rewrite (ensure_dir_lookup_Some _ _ _ d)
      by by apply ensure_dir_lookup_Some.
  - f_equal. unfold ensure_dir at 1.
    destruct (ensure_dir [] m !! [py "index"]) eqn:Hi.
    + destruct (decide (q = [py "index"])) as [->|Hne].
      * unfold ensure_dir in Hi |- *. destruct (m !! []) eqn:H0; [congruence|].
        rewrite lookup_insert_ne in Hi by done. congruence.
      * unfold ensure_dir. destruct (m !! []) eqn:H0; [by rewrite Hq|].
        destruct (decide (q = [])) as [->|Hne']; [by rewrite lookup_insert_eq|].
        by rewrite lookup_insert_ne, Hq.
    + destruct (decide (q = [py "index"])) as [->|Hne];
        [by rewrite lookup_insert_eq|].
      rewrite lookup_insert_ne by done.
      unfold ensure_dir. destruct (m !! []) eqn:H0; [by rewrite Hq|].
      destruct (decide (q = [])) as [->|Hne']; [by rewrite lookup_insert_eq|].
      by rewrite lookup_insert_ne, Hq.
Qed.

Lemma mkdir_p_keeps_names q m : keeps_names m (mkdir_p q m).
Proof.
  intros p t. unfold sidecar. destruct (m !! p) as [d|] eqn:Hp; [|done].
  by rewrite (mkdir_p_lookup_Some _ _ _ d).
Qed.

Lemma insert_keeps_names q m (d d' : Dir float32) :
  m !! q = Some d → name_txt d' = name_txt d → keeps_names m (<[q := d']> m).
Proof.
  intros Hq Hn p t. unfold sidecar.
  destruct (decide (p = q)) as [->|Hne].
  - rewrite lookup_insert_eq, Hq. simpl. congruence.
  - by rewrite lookup_insert_ne.
Qed.

Lemma insert_fresh_keeps_names q m (d' : Dir float32) :
  sidecar m q = None → keeps_names m (<[q := d']> m).
Proof.
  intros Hq p t Hp. unfold sidecar.
  rewrite lookup_insert_ne; [done | congruence].
Qed.

Lemma save_index_keeps_names f s :
  keeps_names (fs s) (fs (_save_index f s).1).
Proof.
  unfold _save_index, mbind, M_bind, get_self, get_fs, raise, put_fs.
  destruct (fs s !! index_dir (self s)) as [d|] eqn:Hd;
    [|apply keeps_names_refl].
  destruct (index_write_fails f); [apply keeps_names_refl|]. cbn [self fs fst].
  destruct (metadata_write_fails f); cbn [self fs fst];
    by eapply insert_keeps_names.
Qed.

Lemma create_index_keeps_names f s :
  keeps_names (fs s) (fs (_create_index f s).1).
Proof.
  unfold _create_index, mbind, M_bind, get_self, put_self.
  apply (save_index_keeps_names f {| self := _; fs := fs s |}).
Qed.

Lemma load_index_fs s : fs (_load_index s).1 = fs s.
Proof.
  unfold _load_index, mbind, M_bind, get_self, get_fs, put_self, raise.
  repeat case_match; done.
Qed.

Lemma init_keeps_names f name s :
  keeps_names (fs s) (fs (__init__ f name s).1).
Proof.
  unfold __init__, mbind, M_bind, lift, get_self, get_fs, put_self, put_fs,
    raise, mret, M_ret.
  destruct (NameCodec.quote name) as [safe|]; [|apply keeps_names_refl].
  cbn [self fs].
  destruct (mkdir_fails f); [apply keeps_names_refl|]. cbn [self fs].
  set (dir := index_dir_of safe). set (m1 := mkdir_p dir (fs s)).
  assert (keeps_names (fs s) m1) as H1 by apply mkdir_p_keeps_names.
  destruct (name_exists m1 dir) eqn:Hex; cbn [self fs].
  - eapply keeps_names_trans; [exact H1|].
    destruct (index_exists m1 dir && metadata_exists m1 dir).
    + rewrite load_index_fs. apply keeps_names_refl.
    + apply (create_index_keeps_names f {| self := _; fs := m1 |}).
  - destruct (name_write_fails f); [done|].
    destruct (m1 !! dir) as [d|] eqn:Hd; [|done]. cbn [self fs].
    set (m2 := <[dir := write_name name d]> m1).
    assert (keeps_names m1 m2) as H2.
    { apply insert_fresh_keeps_names. unfold name_exists in Hex.
      apply bool_decide_eq_false in Hex. unfold sidecar.
      destruct (m1 !! dir ≫= name_txt) eqn:E; [|done].
      exfalso. apply Hex. by eexists. }
    eapply keeps_names_trans; [exact H1|].
    eapply keeps_names_trans; [exact H2|].
    destruct (index_exists m2 dir && metadata_exists m2 dir).
    + rewrite load_index_fs. apply keeps_names_refl.
    + apply (create_index_keeps_names f {| self := _; fs := m2 |}).
Qed.

Lemma new_VectorStore_keeps_names f name m :
  keeps_names m (new_VectorStore f name m).1.
Proof.
  unfold new_VectorStore.
  pose proof (init_keeps_names f name {| self := blank; fs := m |}) as H.
  destruct (__init__ f name _) as [s r]. exact H.
Qed.


Lemma run_opens_keeps_names opens m : keeps_names m (run_opens opens m).
Proof.
  revert m. induction opens as [|[f name] opens IH]; intros m.
  - apply keeps_names_refl.
  - cbn [run_opens]. eapply keeps_names_trans; [|apply IH].
    apply new_VectorStore_keeps_names.
Qed.

(** C9. A [name.txt] that exists keeps its content through any sequence
    of opens, of any collections and whatever the environment refuses:
    [__init__] writes the file only when it is absent. *)
Theorem sidecar_written_only_when_absent
    (opens : list (Faults * pystr)) m (p : path) (t : pystr) :
  sidecar m p = Some t → sidecar (run_opens opens m) p = Some t.
Proof. apply run_opens_keeps_names. Qed.

(** *** [__init__] *)

Lemma save_index_ok f v m (d : Dir float32) :
  index_write_fails f = false → metadata_write_fails f = false →
  m !! index_dir v = Some d →
  _save_index f {| self := v; fs := m |}
  = ({| self := v;
        fs := <[index_dir v :=
                 write_metadata (metadata_list v) (write_index (index v) d)]> m |},
     Ok ()).
Proof.
  intros Hi Hm Hd.
  unfold _save_index, mbind, M_bind, get_self, get_fs, raise, put_fs.
  cbn [self fs]. by rewrite Hd, Hi, Hm.
Qed.

Lemma create_index_ok f v m (d : Dir float32) :
  index_write_fails f = false → metadata_write_fails f = false →
  m !! index_dir v = Some d →
  _create_index f {| self := v; fs := m |}
  = ({| self := created (collection_name v) (index_dir v);
        fs := <[index_dir v :=
                 write_metadata [] (write_index {| dim := 1536; xb := [] |} d)]> m |},
     Ok ()).
Proof.
  intros Hi Hm Hd. unfold _create_index, mbind, M_bind, get_self, put_self.
  cbn [self fs].
  by rewrite (save_index_ok f _ m d).
Qed.

Lemma load_index_ok v m (ix : Index float32) (l : list Entry) :
  m !! index_dir v ≫= index_faiss = Some (Valid ix) →
  m !! index_dir v ≫= metadata_pkl = Some (Valid l) →
  _load_index {| self := v; fs := m |}
  = ({| self := set_metadata_list l (set_index ix v); fs := m |}, Ok ()).
Proof.
  intros Hi Hm. unfold _load_index, get_self, get_fs, put_self.
  unfold mbind, M_bind in *. cbn [self fs]. by rewrite Hi, Hm.
Qed.

(** The last step of [__init__], from a directory that exists. *)
Lemma init_finish f (name : pystr) (dir : path) m (d : Dir float32) :
  index_write_fails f = false → metadata_write_fails f = false →
  m !! dir = Some d →
  let v0 := {| collection_name := name; index_dir := dir; dimension := None;
               index := {| dim := 0; xb := [] |}; metadata_list := [] |} in
  let r := (if index_exists m dir && metadata_exists m dir
            then _load_index else _create_index f) {| self := v0; fs := m |} in
  (index_exists m dir ≠ metadata_exists m dir →
     r = ({| self := created name dir;
             fs := <[dir := write_metadata []
                              (write_index {| dim := 1536; xb := [] |} d)]> m |},
          Ok ()))
  ∧ (∀ ix l, index_faiss d = Some (Valid ix) → metadata_pkl d = Some (Valid l) →
             r = ({| self := loaded name dir ix l; fs := m |}, Ok ())).
Proof.
  intros Hi Hm Hd v0 r. subst r. split.
  - intros Hne.
    destruct (index_exists m dir), (metadata_exists m dir); try done;
      cbn [andb]; by rewrite (create_index_ok f v0 m d).
  - intros ix l Hix Hl.
    unfold index_exists, metadata_exists.
    rewrite Hd. cbn [mbind option_bind].
    rewrite Hix, Hl.
    rewrite !bool_decide_eq_true_2 by by eexists. cbn [andb].
    by rewrite (load_index_ok v0 m ix l) by (subst v0; cbn [index_dir]; by rewrite Hd).
Qed.

(** C3 (as amended). When the environment refuses nothing, opening a
    collection of which exactly one of the two files exists returns a
    fresh empty collection and overwrites both files with it; opening one
    whose two files are readable returns their contents as they are,
    whatever the two lengths. No corruption is reported in either case. *)
Theorem new_VectorStore_loads_or_creates f (name safe : pystr) m :
  NameCodec.quote name = Ok safe →
  mkdir_fails f = false → name_write_fails f = false →
  index_write_fails f = false → metadata_write_fails f = false →
  let dir := index_dir_of safe in
  let r := new_VectorStore f name m in
  (index_exists m dir ≠ metadata_exists m dir →
     r.2 = Ok (created name dir)
     ∧ r.1 !! dir ≫= index_faiss = Some (Valid {| dim := 1536; xb := [] |})
     ∧ r.1 !! dir ≫= metadata_pkl = Some (Valid []))
  ∧ (∀ ix l, m !! dir ≫= index_faiss = Some (Valid ix) →
             m !! dir ≫= metadata_pkl = Some (Valid l) →
             r.2 = Ok (loaded name dir ix l)).
Proof.
  intros Hq Hmk Hnw Hiw Hmw dir r. subst r.
  unfold new_VectorStore, __init__, mbind, M_bind, lift,
    get_self, get_fs, put_self, put_fs, raise, mret, M_ret.
  repeat change (option_bind _ _ ?g ?x) with (x ≫= g).
  rewrite Hq, Hmk. cbn [self fs blank dimension index metadata_list]. fold dir.
  set (m1 := mkdir_p dir m).
  pose proof (mkdir_p_lookup_same dir m) as Hd1. fold m1 in Hd1.
  set (d0 := default empty_dir (m !! dir)) in *.
  assert (m !! dir ≫= index_faiss = index_faiss d0) as Hix.
  { subst d0. by destruct (m !! dir). }
  assert (m !! dir ≫= metadata_pkl = metadata_pkl d0) as Hmd.
  { subst d0. by destruct (m !! dir). }
  assert (∀ m2 d2, m2 !! dir = Some d2 →
            index_faiss d2 = index_faiss d0 → metadata_pkl d2 = metadata_pkl d0 →
            index_exists m2 dir = index_exists m dir
            ∧ metadata_exists m2 dir = metadata_exists m dir) as Hex.
  { intros m2 d2 Hd2 Hi2 Hm2. unfold index_exists, metadata_exists.
    rewrite Hd2, Hix, Hmd. cbn [mbind option_bind]. by rewrite Hi2, Hm2. }
  destruct (name_exists m1 dir).
  - destruct (init_finish f name dir m1 d0 Hiw Hmw Hd1) as [Hcreate Hload].
    destruct (Hex m1 d0 Hd1 eq_refl eq_refl) as [E1 E2].
    cbn [self fs]. split.
    + intros Hne. rewrite Hcreate by (rewrite E1, E2; done).
      cbn [fst snd self fs]. rewrite lookup_insert_eq. done.
    + intros ix l Hi Hl. rewrite (Hload ix l) by congruence. done.
  - rewrite Hnw, Hd1. cbn [self fs].
    set (m2 := <[dir := write_name name d0]> m1).
    assert (m2 !! dir = Some (write_name name d0)) as Hd2
      by apply lookup_insert_eq.
    destruct (init_finish f name dir m2 _ Hiw Hmw Hd2) as [Hcreate Hload].
    destruct (Hex m2 _ Hd2 eq_refl eq_refl) as [E1 E2].
    cbn [self fs]. fold m2. split.
    + intros Hne. rewrite Hcreate by (rewrite E1, E2; done).
      cbn [fst snd self fs]. rewrite lookup_insert_eq. done.
    + intros ix l Hi Hl. rewrite (Hload ix l) by (cbn; congruence). done.
Qed.


(** *** [delete_collection] *)

(** C10. [delete_collection] leaves the object as it was: the index, the
    metadata list and the name are unchanged, so [search] and
    [analyze_collection] answer as before. On disk only the directory of
    the collection and what lies below it are touched, and they are gone
    when the call returns. *)
Theorem delete_collection_keeps_object f s :
  let s' := (delete_collection f s).1 in
  self s' = self s
  ∧ (∀ (q : list pyfloat) (k : nat),
       search to_float32 flat_search (self s') q k
       = search to_float32 flat_search (self s) q k)
  ∧ analyze_collection (self s') = analyze_collection (self s)
  ∧ (∀ p, ¬ index_dir (self s) `prefix_of` p → fs s' !! p = fs s !! p)
  ∧ ((delete_collection f s).2 = Ok () →
     fs s' !! index_dir (self s) = None).
Proof.
  intros s'. subst s'.
  unfold delete_collection, mbind, M_bind, get_self, get_fs, put_fs, raise,
    mret, M_ret.
  case_bool_decide as Hex; [destruct (rmtree_fails f)|]; cbn [self fs fst snd].
  - split_and!; try done.
  - split_and!; try done.
    + intros p Hp. unfold rmtree. apply option_eq. intros d.
      rewrite map_lookup_filter_Some. naive_solver.
    + intros _. unfold rmtree. apply map_lookup_filter_None. right.
      intros d _ Hn. by apply Hn.
  - split_and!; try done. intros _.
    destruct (fs s !! index_dir (self s)) eqn:E; [|done].
    exfalso. apply Hex. by eexists.
Qed.


(** *** [search] *)

Implicit Types (distances : list distance) (indices todo : list Z)
  (seen : gset Z).

Lemma py_getitem_ok {A} (l : list A) (i : Z) :
  (0 ≤ i < Z.of_nat (length l))%Z → ∃ a, py_getitem l i = Ok a.
Proof.
  intros Hi. unfold py_getitem. cbv zeta.
  rewrite (decide_False (P := (i < 0)%Z)) by lia.
  rewrite decide_True by lia.
  destruct (lookup_lt_is_Some_2 l (Z.to_nat i)) as [a Ha]; [lia|].
  rewrite Ha. by exists a.
Qed.

Lemma py_index_ok indices (idx : Z) :
  idx ∈ indices → ∃ pos, py_index indices idx = Ok pos ∧ pos < length indices.
Proof.
  intros Hin. unfold py_index.
  destruct (list_find_elem_of (λ y, y = idx) indices idx Hin eq_refl)
    as [[pos y] Hf].
  rewrite Hf. exists pos. split; [done|].
  apply list_find_Some in Hf as (Hl & _). by eapply lookup_lt_Some.
Qed.

Lemma make_result_ok v distances indices (idx : Z) :
  length distances = length indices →
  idx ∈ indices →
  (0 ≤ idx < Z.of_nat (length (metadata_list v)))%Z →
  ∃ h, make_result v distances indices idx = Ok h.
Proof.
  intros Hlen Hin Hidx. unfold make_result.
  destruct (py_getitem_ok (metadata_list v) idx Hidx) as [e ->].
  destruct (py_index_ok indices idx Hin) as (pos & -> & Hpos).
  destruct (py_getitem_ok distances (Z.of_nat pos)) as [dist Hd]; [lia|].
  cbn. rewrite Hd. by eexists.
Qed.

Lemma filter_not_seen (x : Z) seen (l : list Z) :
  filter (λ y, y ∉ ({[x]} ∪ seen : gset Z)) l
  = filter (λ y, y ∉ seen) (filter (λ y, y ≠ x) l).
Proof.
  rewrite list_filter_filter. apply list_filter_iff. intros y. set_solver.
Qed.

Lemma filter_seen_drop (x : Z) seen (l : list Z) :
  x ∈ seen →
  filter (λ y, y ∉ seen) (filter (λ y, y ≠ x) l) = filter (λ y, y ∉ seen) l.
Proof.
  intros Hx. rewrite list_filter_filter. apply list_filter_iff.
  intros y. set_solver.
Qed.

(** The first loop: one result per position not seen yet, in order of
    first occurrence. *)
Lemma add_results_initial v distances indices todo results seen :
  length distances = length indices →
  Forall (λ idx, idx ∈ indices
                 ∧ (0 ≤ idx < Z.of_nat (length (metadata_list v)))%Z) todo →
  ∃ hits,
    add_results v distances indices (λ _, true) todo results seen
    = Ok (results ++ hits, list_to_set todo ∪ seen)
    ∧ Forall2 (λ idx h, make_result v distances indices idx = Ok h)
        (filter (λ y, y ∉ seen) (keep_first todo)) hits.
Proof.
  intros Hlen Hall. revert results seen.
  induction Hall as [|idx todo [Hin Hidx] _ IH]; intros results seen.
  - exists []. cbn. rewrite app_nil_r. split; [f_equal; f_equal; set_solver | constructor].
  - cbn [add_results keep_first]. rewrite andb_true_r.
    destruct (decide (idx ∈ seen)) as [Hs|Hs].
    + rewrite bool_decide_eq_false_2 by tauto.
      destruct (IH results seen) as (hits & -> & Hf).
      exists hits. split; [f_equal; f_equal; set_solver|].
      rewrite filter_cons. rewrite decide_False by (intros Hn; by apply Hn).
      by rewrite filter_seen_drop.
    + rewrite bool_decide_eq_true_2 by done.
      destruct (make_result_ok v distances indices idx Hlen Hin Hidx) as [h Hh].
      rewrite Hh. cbn [mbind result_bind].
      destruct (IH (results ++ [h]) ({[idx]} ∪ seen)) as (hits & -> & Hf).
      exists (h :: hits). split.
      * rewrite <- app_assoc. f_equal. f_equal. set_solver.
      * rewrite filter_cons. rewrite decide_True by done. constructor; [done|].
        by rewrite <- filter_not_seen.
Qed.

(** The second loop adds nothing once every initial result has been seen. *)
Lemma add_results_related v distances indices (initial related : list Z)
    (results : list (Hit distance)) seen :
  (∀ idx, idx ∈ initial → idx ∈ seen) →
  add_results v distances indices (λ idx, bool_decide (idx ∈ initial))
    related results seen
  = Ok (results, seen).
Proof.
  intros Hseen. induction related as [|idx related IH]; [done|].
  cbn [add_results].
  destruct (decide (idx ∈ initial)) as [Hi|Hi].
  - rewrite (bool_decide_eq_false_2 (idx ∉ seen)) by (specialize (Hseen _ Hi); tauto).
    done.
  - rewrite (bool_decide_eq_false_2 (idx ∈ initial)) by done.
    by rewrite andb_false_r.
Qed.

Lemma keep_first_elem (l : list Z) x : x ∈ keep_first l ↔ x ∈ l.
Proof.
  induction l as [|y l IH]; [done|]. cbn [keep_first].
  rewrite !elem_of_cons, list_elem_of_filter, IH.
  destruct (decide (x = y)); naive_solver.
Qed.

Lemma keep_first_NoDup (l : list Z) : NoDup (keep_first l).
Proof.
  induction l as [|y l IH]; [constructor|]. cbn [keep_first].
  constructor; [|by apply NoDup_filter].
  rewrite list_elem_of_filter. tauto.
Qed.

Lemma initial_results_valid n indices k (idx : Z) :
  labels_valid n indices →
  idx ∈ initial_results_of indices k →
  idx ∈ indices ∧ (0 ≤ idx < Z.of_nat n)%Z.
Proof.
  unfold labels_valid, initial_results_of.
  rewrite Forall_forall, list_elem_of_filter. intros Hv [Hne Hin].
  assert (idx ∈ indices) as Hin'.
  { apply list_elem_of_lookup in Hin as [i Hi].
    apply lookup_take_Some in Hi as [Hi _]. by eapply list_elem_of_lookup_2. }
  split; [done|]. destruct (Hv _ Hin'); [done|lia].
Qed.


Lemma filter_not_in_empty seen (l : list Z) :
  seen = ∅ → filter (λ y, y ∉ seen) l = l.
Proof.
  intros ->. induction l as [|x l IH]; [done|].
  rewrite filter_cons, decide_True by set_solver. by rewrite IH.
Qed.


(** C5 (as amended). On a collection without vectors the labels of the
    index search are all padding, and [search] returns the empty list: it
    raises nothing of its own. *)
Theorem search_empty_collection_returns_nothing v (q : list pyfloat)
    (k : nat) distances indices :
  ntotal (index v) = 0 →
  flat_search (index v) (to_float32 <$> q) (k * 2) = Ok (distances, indices) →
  labels_valid (ntotal (index v)) indices →
  search to_float32 flat_search v q k = Ok [].
Proof.
  intros Hn Hfs Hvalid. rewrite Hn in Hvalid.
  assert (initial_results_of indices k = []) as Hinit.
  { unfold initial_results_of.
    assert (Forall (λ i, i = (-1)%Z) (take k indices)) as Hpad.
    { apply Forall_take. eapply Forall_impl; [exact Hvalid|].
      intros i [?|?]; [done|lia]. }
    induction Hpad as [|i l Hi _ IH]; [done|].
    by rewrite filter_cons, decide_False by (intros Hne; by apply Hne). }
  unfold search. rewrite Hfs. cbn [mbind result_bind]. rewrite Hinit.
  cbn [add_results mbind result_bind].
  rewrite (add_results_related v distances indices [] _ [] ∅); [done|].
  intros idx Hin. by apply elem_of_nil in Hin.
Qed.

End store_facts.

(** *** Concrete runs on [ZFlat] *)

Import ZFlat.
Local Open Scope Z_scope.



(** C4, as stated, fails: after an append whose save fails the object
    still holds the vector and the metadata entry of the batch. *)
Lemma add_documents_does_not_roll_back :
  let r := ZFlat.add_documents metadata_disk_full [doc "f" 0 [] [] 1 2]
             empty_db in
  r.2 = Raise OSError
  ∧ xb (index (self r.1)) = [[1; 2]]
  ∧ length (metadata_list (self r.1)) = 1%nat
  ∧ self r.1 ≠ self empty_db.
Proof.
  split_and!; [by vm_compute .. |]. intros H.
  apply (f_equal (λ v, length (metadata_list v))) in H. vm_compute in H.
  discriminate H.
Qed.

Lemma add_documents_failed_save_keeps_batch_witness :
  let docs := [doc "f" 0 [] [] 1 2] in
  let v' := self (ZFlat.add_documents metadata_disk_full docs empty_db).1 in
  accepted (dim (index (self empty_db))) docs
  ∧ (ZFlat.add_documents metadata_disk_full docs empty_db).2 = Raise OSError
  ∧ xb (index v') = xb (index (self empty_db)) ++ (vector_of id <$> docs)
  ∧ metadata_list v' = metadata_list (self empty_db) ++ (entry_of <$> docs).
Proof.
  intros docs v'.
  assert (accepted (dim (index (self empty_db))) docs) as Hacc.
  { apply (bool_decide_eq_true_1 _). vm_compute. reflexivity. }
  assert ((ZFlat.add_documents metadata_disk_full docs empty_db).2
          = Raise OSError) as Hr by (vm_compute; reflexivity).
  split; [exact Hacc|]. split; [exact Hr|].
  destruct (add_documents_failed_save_keeps_batch id metadata_disk_full
              docs empty_db OSError Hacc Hr) as (_ & Hx & Hm).
  split; [exact Hx | exact Hm].
Defined.

(** C3, as stated, fails: with the index file alone the open returns a
    fresh empty collection, and with one vector and no metadata entry it
    returns the two mismatched sequences. *)
Lemma open_never_reports_corruption :
  (new_VectorStore no_faults (py "db") only_index).2
  = Ok (created (py "db") db_dir)
  ∧ (new_VectorStore no_faults (py "db") mismatched).2
    = Ok (loaded (py "db") db_dir one_vector [])
  ∧ length (xb one_vector) ≠ length (@nil Entry).
Proof. split_and!; [by vm_compute | by vm_compute | done]. Qed.

Lemma new_VectorStore_loads_or_creates_witness :
  NameCodec.quote (py "db") = Ok (py "db")
  ∧ (new_VectorStore no_faults (py "db") only_index).2
    = Ok (created (py "db") (index_dir_of (py "db")))
  ∧ (new_VectorStore no_faults (py "db") mismatched).2
    = Ok (loaded (py "db") (index_dir_of (py "db")) one_vector []).
Proof.
  assert (NameCodec.quote (py "db") = Ok (py "db")) as Hq
    by (vm_compute; reflexivity).
  split; [exact Hq|]. split.
  - destruct (new_VectorStore_loads_or_creates no_faults (py "db") (py "db")
                only_index Hq eq_refl eq_refl eq_refl eq_refl)
      as [Hcreate _].
    apply Hcreate. vm_compute. discriminate.
  - destruct (new_VectorStore_loads_or_creates no_faults (py "db") (py "db")
                mismatched Hq eq_refl eq_refl eq_refl eq_refl)
      as [_ Hload].
    apply Hload; vm_compute; reflexivity.
Defined.

(** C5, as stated, fails: a search on a collection without vectors
    returns the empty list. *)
Lemma search_empty_collection_is_not_an_error :
  ZFlat.search (store_of []) [1; 2] 5 = Ok [].
Proof. by vm_compute. Qed.

Lemma search_empty_collection_returns_nothing_witness :
  let v := store_of [] in
  ntotal (index v) = 0%nat
  ∧ ZFlat.flat_search (index v) [7; 7] 2
    = Ok ([None; None], [-1; -1])
  ∧ ZFlat.search v [7; 7] 1 = Ok [].
Proof.
  intros v.
  assert (ZFlat.flat_search (index v) (id <$> [7; 7]) (1 * 2)
          = Ok ([None; None], [-1; -1])) as Hfs by (vm_compute; reflexivity).
  split; [reflexivity|]. split; [exact Hfs|].
  apply (search_empty_collection_returns_nothing id ZFlat.flat_search v
           [7; 7] 1%nat [None; None] [-1; -1] eq_refl Hfs).
  apply (bool_decide_eq_true_1 _). vm_compute. reflexivity.
Defined.

(** A hand-edited [name.txt] survives two opens of its collection. *)
Lemma sidecar_written_only_when_absent_witness :
  sidecar edited_name db_dir = Some (py "my database")
  ∧ sidecar (run_opens [(no_faults, py "db"); (no_faults, py "db")]
               edited_name) db_dir
    = Some (py "my database").
Proof.
  assert (sidecar edited_name db_dir = Some (py "my database")) as Hs
    by (vm_compute; reflexivity).
  split; [exact Hs|].
  exact (sidecar_written_only_when_absent
           [(no_faults, py "db"); (no_faults, py "db")]
           edited_name db_dir (py "my database") Hs).
Defined.

End StoreFacts.

(** ** Analyzer: the statistics per file and the distributions *)

Module AnalyzerMore.
Import Analyzer AnalyzerFacts.

Section dict_more.
Context {K V : Type} `{EqDecision K}.
Implicit Types (k : K) (v : V) (d : list (K * V)).

Lemma dict_get_set_eq k v d : dict_get k (dict_set k v d) = Some v.
Proof.
  induction d as [|[k' v'] d IH]; cbn.
  - by rewrite decide_True.
  - destruct (decide (k = k')) as [->|Hne]; cbn.
    + by rewrite decide_True.
    + by rewrite decide_False.
Qed.

Lemma dict_get_set_ne k k' v d :
  k' ≠ k → dict_get k' (dict_set k v d) = dict_get k' d.
Proof.
  intros Hne. induction d as [|[k0 v0] d IH]; cbn.
  - by rewrite decide_False.
  - destruct (decide (k = k0)) as [->|Hne0]; cbn.
    + by rewrite !decide_False.
    + by rewrite IH.
Qed.
End dict_more.

Lemma analyze_loop_file_stats (l : list Entry) (fname : pystr) :
  dict_get fname (file_stats (analyze_loop l))
  = (λ e0, stat_of e0 (entries_of fname l)) <$> head (entries_of fname l).
Proof.
  induction l as [|doc l IH] using rev_ind; [done|].
  rewrite analyze_loop_snoc. cbn [analyze_step file_stats].
  unfold entries_of in *. rewrite filter_app, filter_cons, filter_nil.
  destruct (decide (file_name (metadata doc) = fname)) as [<-|Hne].
  - rewrite dict_get_set_eq, IH.
    destruct (filter _ l) as [|e0 es] eqn:Hes; cbn.
    + f_equal. unfold stat_of, lengths. cbn. f_equal. lia.
    + f_equal. unfold stat_of, lengths. cbn. f_equal.
      * rewrite length_app. cbn. lia.
      * rewrite fmap_app. cbn. rewrite sum_list_snoc.
        change (list_fmap Entry nat ?g ?x) with (g <$> x). lia.
  - rewrite dict_get_set_ne by done. by rewrite IH, app_nil_r.
Qed.

(** For every file name, [file_stats] holds the number of entries of
    that file, the sum of their text lengths and the file type of its
    first entry; a name without entries has no record. *)
Theorem file_stats_per_file (l : list Entry) (fname : pystr) :
  dict_get fname (res_file_stats (analyze_collection l))
  = match head (entries_of fname l) with
    | Some e0 => Some (stat_of e0 (entries_of fname l))
    | None => None
    end.
Proof.
  unfold analyze_collection. cbn [res_file_stats].
  rewrite analyze_loop_file_stats. by destruct (head _).
Qed.

Lemma chunk_counts_sum (l : list Entry) :
  sum_list (chunk_count <$> dict_values (file_stats (analyze_loop l)))
  = length l.
Proof.
  induction l as [|doc l IH] using rev_ind; [done|].
  rewrite analyze_loop_snoc, length_app. cbn [analyze_step file_stats length].
  rewrite <- IH.
  destruct (dict_get _ (file_stats (analyze_loop l))) as [s0|] eqn:Hg.
  - pose proof (dict_values_set_present chunk_count _
      {| chunk_count := chunk_count s0 + 1;
         total_length := total_length s0 + length (text doc);
         stat_file_type := stat_file_type s0 |} s0 _ Hg) as Hs.
    cbn [chunk_count] in Hs. lia.
  - rewrite dict_values_set_absent by done. cbn [chunk_count]. lia.
Qed.

Lemma count_file_types_sum (stats : list FileStat) (ft : list (pystr * nat)) :
  sum_list (dict_values
              (fold_left
                 (λ file_types stat,
                    let n := default 0 (dict_get (stat_file_type stat) file_types) in
                    dict_set (stat_file_type stat) (n + 1) file_types)
                 stats ft))
  = sum_list (dict_values ft) + length stats.
Proof.
  revert ft. induction stats as [|st stats IH]; intros ft; cbn [fold_left length].
  - lia.
  - rewrite IH. cbv zeta.
    destruct (dict_get (stat_file_type st) ft) as [n|] eqn:Hg; cbn [default].
    + pose proof (dict_values_set_present (λ x, x) _ (n + 1) n _ Hg) as Hs.
      rewrite !list_fmap_id in Hs. unfold id in *. lia.
    + pose proof (dict_values_set_absent (λ x, x) (stat_file_type st) (0 + 1) ft Hg) as Hs.
      rewrite !list_fmap_id in Hs. unfold id in *. lia.
Qed.

(** The per-file chunk counts add up to the number of chunks, and the
    file-type histogram counts every file exactly once. *)
Theorem analysis_counts_add_up (l : list Entry) :
  let a := analyze_collection l in
  sum_list (chunk_count <$> dict_values (res_file_stats a)) = total_chunks a
  ∧ sum_list (dict_values (file_types a)) = total_files a.
Proof.
  intros a. subst a. unfold analyze_collection.
  cbn [res_file_stats total_chunks file_types total_files]. split.
  - apply chunk_counts_sum.
  - unfold count_file_types. rewrite count_file_types_sum. cbn.
    unfold dict_values. by rewrite length_fmap.
Qed.

(** *** Distributions *)

Lemma foldl_min_spec (a : nat) (l : list nat) :
  foldl Nat.min a l ∈ a :: l ∧ ∀ x, x ∈ a :: l → foldl Nat.min a l ≤ x.
Proof.
  revert a. induction l as [|y l IH]; intros a; cbn [foldl].
  - split; [by left|]. intros x ->%list_elem_of_singleton. done.
  - destruct (IH (a `min` y)) as [Hin Hle]. split.
    + apply elem_of_cons in Hin as [Hm|Hin]; [|by do 2 right].
      rewrite Hm. destruct (Nat.min_dec a y) as [->| ->];
        [by left | right; by left].
    + intros x Hx.
      assert (foldl Nat.min (a `min` y) l ≤ a `min` y) as H0
        by (apply Hle; by left).
      apply elem_of_cons in Hx as [->|Hx]; [lia|].
      apply elem_of_cons in Hx as [->|Hx]; [lia|].
      apply Hle. by right.
Qed.

Lemma foldl_max_spec (a : nat) (l : list nat) :
  foldl Nat.max a l ∈ a :: l ∧ ∀ x, x ∈ a :: l → x ≤ foldl Nat.max a l.
Proof.
  revert a. induction l as [|y l IH]; intros a; cbn [foldl].
  - split; [by left|]. intros x ->%list_elem_of_singleton. done.
  - destruct (IH (a `max` y)) as [Hin Hle]. split.
    + apply elem_of_cons in Hin as [Hm|Hin]; [|by do 2 right].
      rewrite Hm. destruct (Nat.max_dec a y) as [->| ->];
        [by left | right; by left].
    + intros x Hx.
      assert (a `max` y ≤ foldl Nat.max (a `max` y) l) as H0
        by (apply Hle; by left).
      apply elem_of_cons in Hx as [->|Hx]; [lia|].
      apply elem_of_cons in Hx as [->|Hx]; [lia|].
      apply Hle. by right.
Qed.

Lemma filter_all {A} (P : A → Prop) `{∀ x, Decision (P x)} (l : list A) :
  Forall P l → filter P l = l.
Proof.
  induction 1 as [|x l Hx _ IH]; [done|].
  by rewrite filter_cons, decide_True, IH.
Qed.

(** On a non-empty sequence the reported minimum, maximum and median are
    values of the sequence, every value lies between the minimum and the
    maximum, and the median is an upper median: more than half of the
    values are at most the median and at least half are at least it. *)
Theorem distribution_bounds (v : list nat) :
  v ≠ [] →
  let d := distribution v in
  dist_min d ∈ v ∧ dist_max d ∈ v ∧ dist_median d ∈ v
  ∧ (∀ x, x ∈ v → dist_min d ≤ x ≤ dist_max d)
  ∧ length v `div` 2 < length (filter (λ x, x ≤ dist_median d) v)
  ∧ length v - length v `div` 2
    ≤ length (filter (λ x, dist_median d ≤ x) v).
Proof.
  intros Hne d. subst d. unfold distribution.
  cbn [dist_min dist_max dist_median].
  destruct v as [|a v']; [done|]. set (v := a :: v') in *.
  destruct (foldl_min_spec a v') as [Hmin_in Hmin].
  destruct (foldl_max_spec a v') as [Hmax_in Hmax].
  assert (sorted v ≡ₚ v) as Hperm by apply merge_sort_Permutation.
  assert (StronglySorted (≤) (sorted v)) as Hsorted.
  { apply StronglySorted_merge_sort; [apply _ | intros x y; lia]. }
  assert (length (sorted v) = length v) as Hlen by by rewrite Hperm.
  assert (length v `div` 2 < length v) as Hmid.
  { apply Nat.div_lt; [cbn; lia | lia]. }
  set (m := length v `div` 2) in *.
  destruct (lookup_lt_is_Some_2 (sorted v) m) as [md Hmd]; [lia|].
  rewrite Hmd. cbn [default].
  pose proof (take_drop_middle (sorted v) m md Hmd) as Hsplit.
  set (l1 := take m (sorted v)) in *. set (l2 := drop (S m) (sorted v)) in *.
  assert (length l1 = m) as Hl1 by (subst l1; rewrite length_take; lia).
  assert (length l2 = length v - S m) as Hl2
    by (subst l2; rewrite length_drop; lia).
  assert (Forall (λ x, x ≤ md) l1) as Hlow.
  { apply Forall_forall. intros x Hx.
    eapply (StronglySorted_app_1_elem_of le l1 (md :: l2));
      [by rewrite Hsplit | done | by left]. }
  assert (Forall (λ x, md ≤ x) l2) as Hhigh.
  { apply Forall_forall. intros x Hx.
    eapply (StronglySorted_app_1_elem_of le (l1 ++ [md]) l2);
      [rewrite <- app_assoc; cbn [app]; by rewrite Hsplit | | done].
    apply elem_of_app. right. by left. }
  assert (∀ (P : nat → Prop) `{∀ x, Decision (P x)},
            length (filter P v) = length (filter P (l1 ++ md :: l2)))
    as Hcount.
  { intros P ?. rewrite Hsplit. by rewrite Hperm. }
  split_and!; try done.
  - rewrite <- Hperm. by eapply list_elem_of_lookup_2.
  - intros x Hx. split; [by apply Hmin | by apply Hmax].
  - rewrite (Hcount (λ x, x ≤ md)), filter_app, filter_cons.
    rewrite decide_True by done.
    rewrite (filter_all _ l1 Hlow), length_app. cbn [length]. lia.
  - rewrite (Hcount (λ x, md ≤ x)), filter_app, filter_cons.
    rewrite decide_True by done.
    rewrite length_app. cbn [length]. rewrite (filter_all _ l2 Hhigh). lia.
Qed.

Lemma distribution_bounds_witness :
  let v := [10; 20; 30; 5] in
  let d := distribution v in
  v ≠ []
  ∧ dist_median d ∈ v
  ∧ (∀ x, x ∈ v → dist_min d ≤ x ≤ dist_max d)
  ∧ length v `div` 2 < length (filter (λ x, x ≤ dist_median d) v).
Proof.
  intros v d.
  assert (v ≠ []) as Hne by discriminate.
  split; [exact Hne|].
  destruct (distribution_bounds v Hne) as (_ & _ & Hmed & Hall & Hlow & _).
  split; [exact Hmed|]. split; [exact Hall | exact Hlow].
Defined.

End AnalyzerMore.

(** ** Store: the life of a collection *)

Module StoreLifecycle.
Import Store StoreFacts.

Section lifecycle.
Context {pyfloat float32 : Type}.
Context (to_float32 : pyfloat → float32).
Implicit Types (v : VectorStore float32) (s : St float32)
  (m : gmap path (Dir float32)) (f : Faults) (docs : list (Document pyfloat))
  (name safe : pystr).

(** The directory [__init__] leaves when it creates, and when it loads. *)
Lemma open_create_run f name safe m :
  NameCodec.quote name = Ok safe →
  mkdir_fails f = false → name_write_fails f = false →
  index_write_fails f = false → metadata_write_fails f = false →
  let dir := index_dir_of safe in
  index_exists m dir && metadata_exists m dir = false →
  new_VectorStore f name m
  = (<[dir := {| name_txt := Some (default name (sidecar m dir));
                 index_faiss := Some (Valid {| dim := 1536; xb := [] |});
                 metadata_pkl := Some (Valid []) |}]> (mkdir_p dir m),
     Ok (created name dir)).
Proof.
  intros Hq Hmk Hnw Hiw Hmw dir Hex.
  unfold new_VectorStore, __init__, mbind, M_bind, lift,
    get_self, get_fs, put_self, put_fs, raise, mret, M_ret.
  repeat change (option_bind _ _ ?g ?x) with (x ≫= g).
  rewrite Hq, Hmk. cbn [self fs blank dimension index metadata_list]. fold dir.
  set (m1 := mkdir_p dir m).
  pose proof (mkdir_p_lookup_same dir m) as Hd1. fold m1 in Hd1.
  set (d0 := default empty_dir (m !! dir)) in *.
  assert (sidecar m dir = name_txt d0) as Hsc.
  { unfold sidecar. subst d0. by destruct (m !! dir). }
  assert (∀ m2 (d2 : Dir float32), m2 !! dir = Some d2 →
            index_faiss d2 = index_faiss d0 → metadata_pkl d2 = metadata_pkl d0 →
            index_exists m2 dir && metadata_exists m2 dir = false) as Hex2.
  { intros m2 d2 Hd2 Hi2 Hm2. rewrite <- Hex.
    unfold index_exists, metadata_exists. rewrite Hd2. subst d0.
    destruct (m !! dir); cbn [mbind option_bind default];
      by rewrite Hi2, Hm2. }
  unfold name_exists. rewrite Hd1. cbn [mbind option_bind].
  rewrite Hsc.
  destruct (name_txt d0) as [t|] eqn:Hn.
  - rewrite bool_decide_eq_true_2 by by eexists. cbn [self fs].
    rewrite (Hex2 m1 d0 Hd1 eq_refl eq_refl).
    erewrite create_index_ok; [|done|done|exact Hd1].
    cbn [fst snd self fs index_dir collection_name].
    unfold write_metadata, write_index. cbn. by rewrite Hn.
  - rewrite bool_decide_eq_false_2 by (by intros [? ?]). rewrite Hnw.
    cbn [self fs].
    rewrite (Hex2 (<[dir:=write_name name d0]> m1) (write_name name d0))
      by (by rewrite ?lookup_insert_eq).
    erewrite create_index_ok; [|done|done|cbn [index_dir]; apply lookup_insert_eq].
    cbn [fst snd self fs index_dir collection_name].
    rewrite insert_insert_eq. done.
Qed.

Lemma init_load f name (dir : path) m (d : Dir float32)
    (ix : Index float32) (l : list Entry) :
  m !! dir = Some d →
  index_faiss d = Some (Valid ix) → metadata_pkl d = Some (Valid l) →
  (if index_exists m dir && metadata_exists m dir
   then _load_index else _create_index f)
    {| self := {| collection_name := name; index_dir := dir;
                  dimension := None; index := {| dim := 0; xb := [] |};
                  metadata_list := [] |};
       fs := m |}
  = ({| self := loaded name dir ix l; fs := m |}, Ok ()).
Proof.
  intros Hd Hix Hl. unfold index_exists, metadata_exists.
  rewrite Hd. cbn [mbind option_bind]. rewrite Hix, Hl.
  rewrite !bool_decide_eq_true_2 by by eexists. cbn [andb].
  erewrite load_index_ok; [done | |]; cbn [index_dir]; by rewrite Hd.
Qed.

Lemma open_load_run f name safe m (ix : Index float32) (l : list Entry) :
  NameCodec.quote name = Ok safe →
  mkdir_fails f = false → name_write_fails f = false →
  let dir := index_dir_of safe in
  m !! dir ≫= index_faiss = Some (Valid ix) →
  m !! dir ≫= metadata_pkl = Some (Valid l) →
  (new_VectorStore f name m).2 = Ok (loaded name dir ix l)
  ∧ (new_VectorStore f name m).1 !! dir ≫= index_faiss = Some (Valid ix)
  ∧ (new_VectorStore f name m).1 !! dir ≫= metadata_pkl = Some (Valid l)
  ∧ sidecar (new_VectorStore f name m).1 dir
    = Some (default name (sidecar m dir)).
Proof.
  intros Hq Hmk Hnw dir Hix Hl.
  unfold new_VectorStore, __init__, mbind, M_bind, lift,
    get_self, get_fs, put_self, put_fs, raise, mret, M_ret.
  repeat change (option_bind _ _ ?g ?x) with (x ≫= g).
  rewrite Hq, Hmk. cbn [self fs blank dimension index metadata_list]. fold dir.
  set (m1 := mkdir_p dir m).
  pose proof (mkdir_p_lookup_same dir m) as Hd1. fold m1 in Hd1.
  destruct (m !! dir) as [d0|] eqn:Hd0; [|done].
  cbn [default mbind option_bind] in *.
  unfold name_exists, sidecar. rewrite Hd1, Hd0. cbn [mbind option_bind].
  destruct (name_txt d0) as [t|] eqn:Hn.
  - rewrite bool_decide_eq_true_2 by by eexists. cbn [self fs].
    rewrite (init_load f name dir m1 d0 ix l Hd1 Hix Hl).
    cbn [fst snd self fs]. rewrite Hd1.
    unfold id. cbn [mbind option_bind default]. split_and!; congruence.
  - rewrite bool_decide_eq_false_2
      by (intros [x Hx]; unfold id in Hx; cbn in Hx; congruence).
    rewrite Hnw.
    cbn [self fs].
    rewrite (init_load f name dir _ (write_name name d0) ix l)
      by (done || apply lookup_insert_eq).
    cbn [fst snd self fs]. rewrite lookup_insert_eq.
    unfold id. cbn [mbind option_bind default write_name name_txt index_faiss metadata_pkl].
    split_and!; congruence.
Qed.


(** The first open of a collection whose directory does not exist yet
    creates it: a 1536-dimensional empty index, an empty metadata list and
    a [name.txt] holding the name; a second open loads that empty
    collection back. *)
Theorem first_open_creates_then_loads f f' name safe m :
  NameCodec.quote name = Ok safe →
  mkdir_fails f = false → name_write_fails f = false →
  index_write_fails f = false → metadata_write_fails f = false →
  mkdir_fails f' = false → name_write_fails f' = false →
  let dir := index_dir_of safe in
  m !! dir = None →
  let r := new_VectorStore f name m in
  r.2 = Ok (created name dir)
  ∧ sidecar r.1 dir = Some name
  ∧ r.1 !! dir ≫= index_faiss = Some (Valid {| dim := 1536; xb := [] |})
  ∧ r.1 !! dir ≫= metadata_pkl = Some (Valid [])
  ∧ (new_VectorStore f' name r.1).2
    = Ok (loaded name dir {| dim := 1536; xb := [] |} []).
Proof.
  intros Hq Hmk Hnw Hiw Hmw Hmk' Hnw' dir Hnone r. subst r.
  rewrite (open_create_run f name safe m Hq Hmk Hnw Hiw Hmw).
  2: { unfold index_exists. fold dir. by rewrite Hnone. }
  fold dir. cbn [fst snd]. unfold sidecar. rewrite lookup_insert_eq.
  rewrite Hnone. cbn [mbind option_bind default].
  split_and!; try done.
  apply (open_load_run f' name safe); try done; fold dir;
    by rewrite lookup_insert_eq.
Qed.

(** *** Saving and loading *)

Lemma add_documents_rejected_raises f docs s :
  ¬ accepted (dim (index (self s))) docs →
  ∃ e, add_documents to_float32 f docs s = (s, Raise e).
Proof.
  intros Hrej.
  pose proof (add_documents_rejected to_float32 f docs s Hrej) as Hs.
  destruct (add_documents to_float32 f docs s) as [s1 [[]|e]] eqn:E;
    cbn [fst] in Hs; subst s1; [|by exists e].
  exfalso. apply Hrej. clear Hrej. revert E.
  unfold add_documents, mbind, M_bind, lift, get_self, put_self.
  destruct (np_array to_float32 (embedding <$> docs)) as [rows|] eqn:Hnp;
    [|done].
  destruct (index_add (index (self s)) rows) as [ix|] eqn:Hadd; [|done].
  intros _.
  destruct docs as [|doc docs]; [by simplify_eq/=|].
  unfold np_array in Hnp. cbn [fmap list_fmap] in Hnp.
  destruct (forallb _ _) eqn:Hf in Hnp; [|done]. simplify_eq.
  unfold index_add in Hadd. cbn [fmap list_fmap] in Hadd.
  case_decide as Hd; [|done]. rewrite length_fmap in Hd.
  split; [done|]. apply Forall_forall. intros doc' Hin.
  rewrite forallb_forall in Hf.
  specialize (Hf (embedding doc')). apply bool_decide_eq_true in Hf.
  - by rewrite Hf.
  - apply list_elem_of_In. change (embedding doc' ∈ embedding <$> doc :: docs).
    by apply list_elem_of_fmap_2.
Qed.

Lemma save_index_Ok_inv f s s' :
  _save_index f s = (s', Ok ()) →
  ∃ d, fs s !! index_dir (self s) = Some d
       ∧ s' = {| self := self s;
                 fs := <[index_dir (self s) :=
                          write_metadata (metadata_list (self s))
                            (write_index (index (self s)) d)]> (fs s) |}.
Proof.
  unfold _save_index, mbind, M_bind, get_self, get_fs, raise, put_fs.
  destruct (fs s !! index_dir (self s)) as [d|]; [|done].
  destruct (index_write_fails f); [done|]. cbn [self fs].
  destruct (metadata_write_fails f); [done|]. intros [= <-]. by exists d.
Qed.

(** What [add_documents] returned normally is what a later open of the
    same collection loads: the saved index and metadata list are the ones
    in memory. *)
Theorem add_documents_then_reopen f f' name safe docs s s' :
  NameCodec.quote name = Ok safe →
  index_dir (self s) = index_dir_of safe →
  add_documents to_float32 f docs s = (s', Ok ()) →
  mkdir_fails f' = false → name_write_fails f' = false →
  (new_VectorStore f' name (fs s')).2
  = Ok (loaded name (index_dir_of safe) (index (self s'))
          (metadata_list (self s'))).
Proof.
  intros Hq Hdir Hadd Hmk Hnw.
  destruct (decide (accepted (dim (index (self s))) docs)) as [Hacc|Hrej].
  2: { destruct (add_documents_rejected_raises f docs s Hrej) as [e He].
       congruence. }
  rewrite (add_documents_accepted to_float32 f docs s Hacc) in Hadd.
  apply save_index_Ok_inv in Hadd as (d & Hd & ->). cbn [self fs] in *.
  apply (open_load_run f' name safe); try done;
    rewrite <- Hdir; cbn [index_dir with_batch set_metadata_list set_index];
    by rewrite lookup_insert_eq.
Qed.

(** A batch that is not accepted (empty, rows of unequal length, or of
    another dimension than the index) makes [add_documents] raise before
    anything is changed, in memory or on disk. *)
Theorem add_documents_rejected_batch_changes_nothing f docs s :
  ¬ accepted (dim (index (self s))) docs →
  ∃ e, add_documents to_float32 f docs s = (s, Raise e).
Proof. apply add_documents_rejected_raises. Qed.


(** *** [clear_collection] and [delete_collection] *)

Lemma save_index_sidecar f s (p : path) :
  sidecar (fs (_save_index f s).1) p = sidecar (fs s) p.
Proof.
  unfold _save_index, mbind, M_bind, get_self, get_fs, raise, put_fs.
  destruct (fs s !! index_dir (self s)) as [d|] eqn:Hd; [|done].
  destruct (index_write_fails f); [done|]. cbn [self fs].
  assert (∀ d' : Dir float32, name_txt d' = name_txt d →
            sidecar (<[index_dir (self s) := d']> (fs s)) p = sidecar (fs s) p)
    as Hins.
  { intros d' Hn. unfold sidecar.
    destruct (decide (p = index_dir (self s))) as [->|Hne].
    - rewrite lookup_insert_eq, Hd. cbn. done.
    - by rewrite lookup_insert_ne. }
  destruct (metadata_write_fails f); cbn [fst self fs]; by apply Hins.
Qed.

Lemma clear_collection_run f s :
  clear_collection f s
  = let (s1, r) :=
      _save_index f
        {| self := created (collection_name (self s)) (index_dir (self s));
           fs := fs s |} in
    match r with
    | Ok _ => _save_index f s1
    | Raise e => (s1, Raise e)
    end.
Proof. reflexivity. Qed.

(** [clear_collection] empties the object whether or not the save goes
    through, keeps its name and directory, and never touches a
    [name.txt]; when it returns normally both files hold the empty
    collection. *)
Theorem clear_collection_empties f s :
  let r := clear_collection f s in
  self r.1 = created (collection_name (self s)) (index_dir (self s))
  ∧ (∀ p, sidecar (fs r.1) p = sidecar (fs s) p)
  ∧ (r.2 = Ok () →
     fs r.1 !! index_dir (self s) ≫= index_faiss
     = Some (Valid {| dim := 1536; xb := [] |})
     ∧ fs r.1 !! index_dir (self s) ≫= metadata_pkl = Some (Valid [])).
Proof.
  intros r. subst r. rewrite clear_collection_run.
  set (s0 := {| self := created _ _; fs := fs s |}).
  pose proof (save_index_self f s0) as Hself1.
  pose proof (save_index_sidecar f s0) as Hsc1.
  destruct (_save_index f s0) as [s1 [[]|e]].
  - cbn [fst self fs] in Hself1, Hsc1.
    split_and!.
    + by rewrite save_index_self, Hself1.
    + intros p. by rewrite save_index_sidecar, Hsc1.
    + intros Hok.
      destruct (_save_index f s1) as [s2 [[]|e]] eqn:E2; [|done].
      apply save_index_Ok_inv in E2 as (d & Hd & ->). cbn [fst self fs].
      rewrite Hself1. cbn [self index_dir created].
      rewrite lookup_insert_eq. done.
  - cbn [fst snd self fs] in *.
    split_and!; [by rewrite Hself1 | done | done].
Qed.

Lemma delete_collection_Ok_inv f s s' :
  delete_collection f s = (s', Ok ()) →
  self s' = self s ∧ fs s' !! index_dir (self s) = None.
Proof.
  unfold delete_collection, mbind, M_bind, get_self, get_fs, put_fs, raise,
    mret, M_ret.
  case_bool_decide as Hex; [destruct (rmtree_fails f); [done|]|];
    intros [= <-]; cbn [self fs]; (split; [done|]).
  - unfold rmtree. apply map_lookup_filter_None. right.
    intros d _ Hn. by apply Hn.
  - destruct (fs s !! index_dir (self s)) eqn:E; [|done].
    exfalso. apply Hex. by eexists.
Qed.

(** Deleting twice is not an error: once the directory is gone, a second
    [delete_collection] returns normally and changes nothing, whatever
    the environment would refuse. *)
Theorem delete_collection_twice f f' s s' :
  delete_collection f s = (s', Ok ()) →
  delete_collection f' s' = (s', Ok ()).
Proof.
  intros (Hself & Hgone)%delete_collection_Ok_inv.
  unfold delete_collection, mbind, M_bind, get_self, get_fs, put_fs, raise,
    mret, M_ret.
  rewrite Hself, Hgone.
  rewrite bool_decide_eq_false_2; [done|]. by intros [? ?].
Qed.

(** After [delete_collection] has returned, opening the same name gives a
    fresh empty collection with a newly written [name.txt]: no old data
    is revived. *)
Theorem delete_then_open_is_fresh f f' name safe s s' :
  NameCodec.quote name = Ok safe →
  index_dir (self s) = index_dir_of safe →
  delete_collection f s = (s', Ok ()) →
  mkdir_fails f' = false → name_write_fails f' = false →
  index_write_fails f' = false → metadata_write_fails f' = false →
  (new_VectorStore f' name (fs s')).2 = Ok (created name (index_dir_of safe))
  ∧ sidecar (new_VectorStore f' name (fs s')).1 (index_dir_of safe)
    = Some name.
Proof.
  intros Hq Hdir (Hself & Hgone)%delete_collection_Ok_inv Hmk Hnw Hiw Hmw.
  rewrite Hdir in Hgone.
  rewrite (open_create_run f' name safe (fs s') Hq Hmk Hnw Hiw Hmw).
  2: { unfold index_exists. by rewrite Hgone. }
  cbn [fst snd]. split; [done|]. unfold sidecar.
  rewrite lookup_insert_eq, Hgone. done.
Qed.

(** *** Unreadable files *)

(** Opening a collection whose index file and metadata file both exist
    while one of them cannot be read raises, and leaves both files as
    they are: unreadable data is never replaced by a fresh collection. *)
Theorem open_unreadable_collection_raises f name safe m (d : Dir float32) :
  NameCodec.quote name = Ok safe →
  mkdir_fails f = false → name_write_fails f = false →
  let dir := index_dir_of safe in
  m !! dir = Some d →
  is_Some (index_faiss d) → is_Some (metadata_pkl d) →
  index_faiss d = Some Corrupt ∨ metadata_pkl d = Some Corrupt →
  let r := new_VectorStore f name m in
  (∃ e, r.2 = Raise e)
  ∧ r.1 !! dir ≫= index_faiss = index_faiss d
  ∧ r.1 !! dir ≫= metadata_pkl = metadata_pkl d.
Proof.
  intros Hq Hmk Hnw dir Hd [bi Hbi] [bm Hbm] Hbad r. subst r.
  unfold new_VectorStore, __init__, mbind, M_bind, lift,
    get_self, get_fs, put_self, put_fs, raise, mret, M_ret.
  repeat change (option_bind _ _ ?g ?x) with (x ≫= g).
  rewrite Hq, Hmk. cbn [self fs blank dimension index metadata_list]. fold dir.
  set (m1 := mkdir_p dir m).
  pose proof (mkdir_p_lookup_same dir m) as Hd1. fold m1 in Hd1.
  rewrite Hd in Hd1. cbn [default] in Hd1.
  assert (∀ m2 (d2 : Dir float32), m2 !! dir = Some d2 →
            index_faiss d2 = index_faiss d → metadata_pkl d2 = metadata_pkl d →
            let s2 := {| self := {| collection_name := name; index_dir := dir;
                                    dimension := None;
                                    index := {| dim := 0; xb := [] |};
                                    metadata_list := [] |};
                         fs := m2 |} in
            let r := (if index_exists m2 dir && metadata_exists m2 dir
                      then _load_index else _create_index f) s2 in
            (∃ e, r.2 = Raise e) ∧ fs r.1 = m2) as Hload.
  { intros m2 d2 Hd2 Hi2 Hm2 s2 r. subst r s2.
    unfold index_exists, metadata_exists. rewrite Hd2.
    cbn [mbind option_bind]. rewrite Hi2, Hm2, Hbi, Hbm.
    rewrite !bool_decide_eq_true_2 by by eexists. cbn [andb].
    unfold _load_index, mbind, M_bind, get_self, get_fs, put_self, raise.
    repeat change (option_bind _ _ ?g ?x) with (x ≫= g).
    cbn [self fs index_dir]. rewrite Hd2. cbn [mbind option_bind].
    rewrite Hi2, Hm2, Hbi, Hbm.
    destruct bi as [ix|]; [|by eauto]. cbn [self fs index_dir set_index].
    destruct bm as [l|]; [|by eauto].
    destruct Hbad as [Hbad|Hbad]; congruence. }
  unfold name_exists. rewrite Hd1. cbn [mbind option_bind]. unfold id.
  destruct (name_txt d) as [t|] eqn:Hn.
  - rewrite bool_decide_eq_true_2 by by eexists. cbn [self fs].
    destruct (Hload m1 d Hd1 eq_refl eq_refl) as [[e He] Hfs].
    cbv zeta in He, Hfs.
    destruct (_ {| self := _; fs := m1 |}) as [s3 r3] eqn:E.
    cbn [fst snd] in *. subst r3. rewrite Hfs, Hd1.
    split; [by exists e | done].
  - rewrite bool_decide_eq_false_2 by (by intros [? ?]). rewrite Hnw.
    cbn [self fs].
    destruct (Hload (<[dir:=write_name name d]> m1) (write_name name d))
      as [[e He] Hfs]; [by rewrite lookup_insert_eq | done | done |].
    cbv zeta in He, Hfs.
    destruct (_ {| self := _; fs := <[dir:=_]> m1 |}) as [s3 r3] eqn:E.
    cbn [fst snd] in *. subst r3. rewrite Hfs, lookup_insert_eq.
    split; [by exists e | done].
Qed.

End lifecycle.

(** *** Concrete runs on [ZFlat] *)

Import ZFlat.

(** The collection [db] with an index file that cannot be read. *)
Lemma open_unreadable_collection_raises_witness :
  let r := new_VectorStore no_faults (py "db") unreadable_index in
  NameCodec.quote (py "db") = Ok (py "db")
  ∧ (∃ e, r.2 = Raise e)
  ∧ r.1 !! index_dir_of (py "db") ≫= index_faiss = Some Corrupt
  ∧ r.1 !! index_dir_of (py "db") ≫= metadata_pkl = Some (Valid []).
Proof.
  intros r.
  assert (NameCodec.quote (py "db") = Ok (py "db")) as Hq
    by (vm_compute; reflexivity).
  split; [exact Hq|].
  exact (open_unreadable_collection_raises no_faults (py "db") (py "db")
           unreadable_index
           {| name_txt := Some (py "db"); index_faiss := Some Corrupt;
              metadata_pkl := Some (Valid []) |}
           Hq eq_refl eq_refl eq_refl
           (ex_intro _ Corrupt eq_refl) (ex_intro _ (Valid []) eq_refl)
           (or_introl eq_refl)).
Defined.

(** The collection [db] opened in an empty working directory, twice. *)
Lemma first_open_creates_then_loads_witness :
  let m : gmap path (Dir Z) := ∅ in
  let r := new_VectorStore no_faults (py "db") m in
  NameCodec.quote (py "db") = Ok (py "db")
  ∧ m !! index_dir_of (py "db") = None
  ∧ r.2 = Ok (created (py "db") (index_dir_of (py "db")))
  ∧ sidecar r.1 (index_dir_of (py "db")) = Some (py "db")
  ∧ (new_VectorStore no_faults (py "db") r.1).2
    = Ok (loaded (py "db") (index_dir_of (py "db"))
            {| dim := 1536; xb := [] |} []).
Proof.
  intros m r.
  assert (NameCodec.quote (py "db") = Ok (py "db")) as Hq
    by (vm_compute; reflexivity).
  assert (m !! index_dir_of (py "db") = None) as Hnone by reflexivity.
  split; [exact Hq|]. split; [exact Hnone|].
  destruct (first_open_creates_then_loads no_faults no_faults (py "db")
              (py "db") m Hq eq_refl eq_refl eq_refl eq_refl eq_refl eq_refl
              Hnone) as (Hr & Hs & _ & _ & Hload).
  split; [exact Hr|]. split; [exact Hs | exact Hload].
Defined.

(** One chunk added to the saved empty collection, then reopened. *)
Lemma add_documents_then_reopen_witness :
  let docs := [doc "f" 0 [] [] 1 2] in
  let r := ZFlat.add_documents no_faults docs saved_empty in
  r.2 = Ok ()
  ∧ (new_VectorStore no_faults (py "db") (fs r.1)).2
    = Ok (loaded (py "db") (index_dir_of (py "db")) (index (self r.1))
            (metadata_list (self r.1)))
  ∧ length (xb (index (self r.1))) = 1%nat.
Proof.
  intros docs r.
  assert (NameCodec.quote (py "db") = Ok (py "db")) as Hq
    by (vm_compute; reflexivity).
  assert (Store.add_documents id no_faults docs saved_empty = (r.1, Ok ()))
    as Hadd by (vm_compute; reflexivity).
  split; [vm_compute; reflexivity|]. split; [|vm_compute; reflexivity].
  exact (add_documents_then_reopen id no_faults no_faults (py "db") (py "db")
           docs saved_empty r.1 Hq eq_refl Hadd eq_refl eq_refl).
Defined.

(** A two-dimensional embedding offered to a 1536-dimensional index. *)
Lemma add_documents_rejected_batch_changes_nothing_witness :
  let docs := [doc "f" 0 [] [] 1 2] in
  ¬ accepted (dim (index (self fresh_db))) docs
  ∧ ∃ e, ZFlat.add_documents no_faults docs fresh_db = (fresh_db, Raise e).
Proof.
  intros docs.
  assert (¬ accepted (dim (index (self fresh_db))) docs) as Hrej.
  { apply (bool_decide_eq_false_1 _). vm_compute. reflexivity. }
  split; [exact Hrej|].
  exact (add_documents_rejected_batch_changes_nothing id no_faults docs
           fresh_db Hrej).
Defined.


(** A second delete under an environment that refuses to remove
    directories. *)
Lemma delete_collection_twice_witness :
  let s' := (delete_collection no_faults saved_empty).1 in
  delete_collection no_faults saved_empty = (s', Ok ())
  ∧ delete_collection rmtree_refused s' = (s', Ok ()).
Proof.
  intros s'.
  assert (delete_collection no_faults saved_empty = (s', Ok ())) as Hdel
    by (vm_compute; reflexivity).
  split; [exact Hdel|].
  exact (delete_collection_twice no_faults rmtree_refused saved_empty s' Hdel).
Defined.

(** Five chunks on disk, deleted and opened again. *)
Lemma delete_then_open_is_fresh_witness :
  let s := {| self := store_of five_chunks; fs := mismatched |} in
  let s' := (delete_collection no_faults s).1 in
  delete_collection no_faults s = (s', Ok ())
  ∧ (new_VectorStore no_faults (py "db") (fs s')).2
    = Ok (created (py "db") (index_dir_of (py "db")))
  ∧ sidecar (new_VectorStore no_faults (py "db") (fs s')).1
      (index_dir_of (py "db"))
    = Some (py "db").
Proof.
  intros s s'.
  assert (NameCodec.quote (py "db") = Ok (py "db")) as Hq
    by (vm_compute; reflexivity).
  assert (delete_collection no_faults s = (s', Ok ())) as Hdel
    by (vm_compute; reflexivity).
  split; [exact Hdel|].
  exact (delete_then_open_is_fresh no_faults no_faults (py "db") (py "db")
           s s' Hq eq_refl Hdel eq_refl eq_refl eq_refl eq_refl).
Defined.

End StoreLifecycle.

(** ** Store: related chunks and ranking *)

Module SearchMore.
Import Store StoreFacts.

Section search_more.
Context {pyfloat float32 distance : Type}.
Context (to_float32 : pyfloat → float32).
Context (flat_search :
  Index float32 → list float32 → nat → result (list distance * list Z)).
Implicit Types (v : VectorStore float32)
  (distances : list distance) (indices : list Z).

(** *** [_get_related_chunks] *)

Lemma related_fold v (l : list Z) (acc : gset Z) (j : Z) :
  j ∈ foldl (λ related_indices idx,
               if decide (0 ≤ idx < Z.of_nat (length (metadata_list v)))%Z then
                 match metadata_list v !! Z.to_nat idx with
                 | Some e =>
                     related_indices
                       ∪ list_to_set (prev_chunks (metadata e))
                       ∪ list_to_set (next_chunks (metadata e))
                       ∪ {[ idx ]}
                 | None => related_indices
                 end
               else related_indices) acc l
  ↔ j ∈ acc ∨ ∃ idx, idx ∈ l ∧ related_to v idx j.
Proof.
  revert acc. induction l as [|idx l IH]; intros acc; cbn [foldl].
  - split; [auto | intros [?|(idx & Hin & _)]; [done|]].
    by apply elem_of_nil in Hin.
  - rewrite IH. clear IH. unfold related_to.
    setoid_rewrite elem_of_cons.
    case_decide as Hr.
    + destruct (metadata_list v !! Z.to_nat idx) as [e|] eqn:He.
      * rewrite !elem_of_union, !elem_of_list_to_set, elem_of_singleton.
        split.
        -- intros [[[[?|?]|?]|?]|(i & Hi & Hrel)]; eauto 10.
           ++ right. exists idx. split; [by left|]. split; [lia|]. eauto.
           ++ right. exists idx. split; [by left|]. split; [lia|]. eauto.
           ++ right. exists idx. split; [by left|]. split; [lia|]. eauto.
        -- intros [?|(i & [->|Hi] & H0 & e' & He' & Hj)]; eauto 10.
           rewrite He in He'. simplify_eq. naive_solver.
      * apply lookup_ge_None in He. lia.
    + split.
      * intros [?|(i & Hi & Hrel)]; eauto 10.
      * intros [?|(i & [->|Hi] & H0 & e' & He' & Hj)]; eauto 10.
        apply lookup_lt_Some in He'. lia.
Qed.

(** The related set holds exactly the in-range positions it was given and
    the neighbours recorded in their metadata; positions outside the
    metadata list contribute nothing. *)
Theorem get_related_chunks_spec v (chunk_indices : list Z) (j : Z) :
  j ∈ _get_related_chunks v chunk_indices
  ↔ ∃ idx, idx ∈ chunk_indices ∧ related_to v idx j.
Proof.
  unfold _get_related_chunks. rewrite related_fold.
  split; [intros [H|H]; [by apply not_elem_of_empty in H | done] | auto].
Qed.


(** *** Ranking *)

Lemma NoDup_filter_lookup {A} (P : A → Prop) `{∀ x, Decision (P x)}
    (l : list A) (i j : nat) (x : A) :
  NoDup (filter P l) → P x → l !! i = Some x → l !! j = Some x → i = j.
Proof.
  revert i j. induction l as [|y l IH]; intros i j Hnd HP Hi Hj; [done|].
  rewrite filter_cons in Hnd.
  destruct i as [|i], j as [|j]; cbn in Hi, Hj; simplify_eq; [done| | |].
  - rewrite decide_True in Hnd by done. apply NoDup_cons in Hnd as [Hn _].
    exfalso. apply Hn. apply list_elem_of_filter. split; [done|].
    by eapply list_elem_of_lookup_2.
  - rewrite decide_True in Hnd by done. apply NoDup_cons in Hnd as [Hn _].
    exfalso. apply Hn. apply list_elem_of_filter. split; [done|].
    by eapply list_elem_of_lookup_2.
  - f_equal. apply IH; try done.
    case_decide; [by apply NoDup_cons in Hnd as [_ ?] | done].
Qed.

Lemma keep_first_NoDup_id (l : list Z) : NoDup l → keep_first l = l.
Proof.
  induction 1 as [|x l Hx _ IH]; [done|]. cbn [keep_first]. rewrite IH.
  f_equal. clear IH. induction l as [|y l IH]; [done|].
  apply not_elem_of_cons in Hx as [Hne Hx].
  rewrite filter_cons, decide_True by done. by rewrite IH.
Qed.

Lemma py_getitem_Ok_inv {A} (l : list A) (i : Z) (a : A) :
  (0 ≤ i)%Z → py_getitem l i = Ok a → l !! Z.to_nat i = Some a.
Proof.
  intros Hi. unfold py_getitem. cbv zeta.
  rewrite (decide_False (P := (i < 0)%Z)) by lia.
  case_decide; [|done]. by destruct (l !! Z.to_nat i); intros [= ->].
Qed.

Lemma py_index_unique indices (i pos : nat) (idx : Z) :
  NoDup (stored_labels indices) → idx ≠ (-1)%Z →
  indices !! i = Some idx → py_index indices idx = Ok pos → pos = i.
Proof.
  intros Hnd Hne Hi. unfold py_index.
  destruct (list_find _ indices) as [[pos' y]|] eqn:Hf; [|done].
  intros [= ->]. apply list_find_Some in Hf as (Hpos & -> & _).
  by eapply (NoDup_filter_lookup (λ idx, idx ≠ (-1)%Z)).
Qed.

Lemma Forall2_impl_elem {A B} (P Q : A → B → Prop) (l : list A) (k : list B) :
  Forall2 P l k → (∀ x y, x ∈ l → P x y → Q x y) → Forall2 Q l k.
Proof.
  induction 1 as [|x y l k HP _ IH]; intros Himp; [constructor|].
  constructor; [apply Himp; [by left | done]|].
  apply IH. intros x' y' Hin. apply Himp. by right.
Qed.

Lemma snd_zip_filter distances indices (k : nat) :
  length distances = length indices →
  initial_results_of indices k
  = (filter (λ p : distance * Z, p.2 ≠ (-1)%Z) (take k (zip distances indices))).*2.
Proof.
  intros Hlen. unfold initial_results_of.
  rewrite <- (snd_zip distances indices) at 1 by lia.
  rewrite <- fmap_take. generalize (take k (zip distances indices)).
  intros l. induction l as [|[d i] l IH]; [done|]. csimpl.
  rewrite !filter_cons. cbn [snd]. case_decide; csimpl; by rewrite IH.
Qed.

(** When the stored labels of the search are distinct, as the positions
    of an exact search are, [search] returns the first [n_results] labels
    in rank order without the padding: each result carries the text and
    metadata at its label and the distance reported at its own rank; so at
    most [n_results] results come back. *)
Theorem search_returns_ranked_hits v (q : list pyfloat) (k : nat)
    distances indices :
  flat_search (index v) (to_float32 <$> q) (k * 2) = Ok (distances, indices) →
  length distances = length indices →
  labels_valid (length (metadata_list v)) indices →
  NoDup (stored_labels indices) →
  ∃ hits,
    search to_float32 flat_search v q k = Ok hits
    ∧ Forall2 (hit_for v)
        (filter (λ p, p.2 ≠ (-1)%Z) (take k (zip distances indices))) hits
    ∧ length hits ≤ k.
Proof.
  intros Hfs Hlen Hvalid Hnd.
  set (initial := initial_results_of indices k).
  assert (NoDup initial) as Hndi.
  { subst initial. unfold initial_results_of.
    unfold stored_labels in Hnd.
    rewrite <- (take_drop k indices), filter_app in Hnd.
    by apply NoDup_app in Hnd as [? _]. }
  destruct (add_results_initial v distances indices initial [] ∅ Hlen)
    as (hits & Hloop & Hhits).
  { apply Forall_forall. intros idx Hin. by eapply initial_results_valid. }
  rewrite filter_not_in_empty in Hhits by done. rewrite app_nil_l in Hloop.
  rewrite keep_first_NoDup_id in Hhits by done.
  exists hits. split_and!.
  - unfold search. rewrite Hfs. cbn [mbind result_bind].
    fold initial. rewrite Hloop. cbn [mbind result_bind].
    rewrite (add_results_related v distances indices initial); [done|].
    set_solver.
  - subst initial. rewrite (snd_zip_filter distances indices k Hlen) in Hhits.
    apply Forall2_fmap_l in Hhits.
    eapply Forall2_impl_elem; [exact Hhits|]. clear Hhits Hloop hits.
    intros [dist idx] h Hin Hmk. cbn [snd compose] in Hmk.
    apply list_elem_of_filter in Hin as [Hne Hin]. cbn [snd] in Hne.
    apply list_elem_of_lookup in Hin as [i Hi].
    apply lookup_take_Some in Hi as [Hi _].
    apply lookup_zip_with_Some in Hi as (d' & i' & [= <- <-] & Hd & Hidx).
    assert (0 ≤ idx)%Z as H0.
    { unfold labels_valid in Hvalid. rewrite Forall_forall in Hvalid.
      destruct (Hvalid idx); [by eapply list_elem_of_lookup_2 | done | lia]. }
    unfold make_result in Hmk.
    destruct (py_getitem (metadata_list v) idx) as [e|] eqn:He; [|done].
    destruct (py_index indices idx) as [pos|] eqn:Hp; [|done].
    cbn [mbind result_bind] in Hmk.
    destruct (py_getitem distances (Z.of_nat pos)) as [d|] eqn:Hdd; [|done].
    cbn [mbind result_bind] in Hmk. injection Hmk as <-.
    apply py_getitem_Ok_inv in He; [|done].
    apply (py_index_unique indices i pos idx Hnd Hne Hidx) in Hp as ->.
    apply py_getitem_Ok_inv in Hdd; [|lia]. rewrite Nat2Z.id in Hdd.
    exists e. split; [done|]. cbn [fst snd]. congruence.
  - apply Forall2_length in Hhits. rewrite <- Hhits.
    subst initial. unfold initial_results_of.
    etrans; [apply length_filter|]. rewrite length_take. lia.
Qed.

End search_more.

(** *** Concrete runs on [ZFlat] *)

Import ZFlat.
Local Open Scope Z_scope.

(** Five chunks on a line and a query next to chunk 2, with [k = 3]: the
    results are the chunks 2, 1 and 3 with the distances 1, 81 and 121. *)
Lemma search_returns_ranked_hits_witness :
  let v := store_of five_chunks in
  let distances :=
    [Some 1; Some 81; Some 121; Some 361; Some 441; None] in
  let indices := [2; 1; 3; 0; 4; -1] in
  ZFlat.flat_search (index v) [19; 0] 6 = Ok (distances, indices)
  ∧ labels_valid (length (metadata_list v)) indices
  ∧ NoDup (stored_labels indices)
  ∧ ∃ hits, ZFlat.search v [19; 0] 3 = Ok hits
            ∧ Forall2 (hit_for v) [(Some 1, 2); (Some 81, 1); (Some 121, 3)]
                hits
            ∧ (length hits ≤ 3)%nat.
Proof.
  intros v distances indices.
  assert (labels_valid (length (metadata_list v)) indices) as Hvalid.
  { apply (bool_decide_eq_true_1 _). vm_compute. reflexivity. }
  assert (NoDup (stored_labels indices)) as Hnd.
  { apply (bool_decide_eq_true_1 _). vm_compute. reflexivity. }
  split; [vm_compute; reflexivity|]. split; [exact Hvalid|].
  split; [exact Hnd|].
  exact (search_returns_ranked_hits id ZFlat.flat_search v [19; 0] 3%nat
           distances indices eq_refl eq_refl Hvalid Hnd).
Defined.

End SearchMore.

(** ** Embedder *)

Module EmbedderFacts.
Import Embedder.
Local Open Scope Z_scope.

Lemma elem_of_py_range (a b j : Z) : j ∈ py_range a b ↔ a ≤ j < b.
Proof.
  unfold py_range. rewrite list_elem_of_fmap. setoid_rewrite elem_of_seq.
  split.
  - intros (i & -> & Hi). lia.
  - intros Hj. exists (Z.to_nat (j - a)). lia.
Qed.

Section split_text.
Context (text_splitter : pystr → list pystr).
Implicit Types (body fpath fname ftype : pystr).

Lemma split_text_lookup body fpath fname ftype (n : nat) (d : Entry) :
  split_text text_splitter body fpath fname ftype !! n = Some d →
  text_splitter body !! n = Some (text d)
  ∧ file_name (metadata d) = fname
  ∧ chunk_id (metadata d) = Z.of_nat n
  ∧ chunk_total (metadata d) = Z.of_nat (length (text_splitter body))
  ∧ (∀ j, j ∈ prev_chunks (metadata d)
          ↔ 0 ≤ j ∧ Z.of_nat n - CONTEXT_WINDOW ≤ j < Z.of_nat n)
  ∧ (∀ j, j ∈ next_chunks (metadata d)
          ↔ Z.of_nat n < j ≤ Z.of_nat n + CONTEXT_WINDOW
            ∧ j < Z.of_nat (length (text_splitter body))).
Proof.
  unfold split_text. cbv zeta. rewrite list_lookup_imap.
  destruct (text_splitter body !! n) as [t|] eqn:Ht; [|done].
  intros [= <-]. cbn.
  split_and!; try done; intros j; rewrite elem_of_py_range; lia.
Qed.

(** [split_text] keeps the chunks of the splitter in order, numbers them
    from 0, and records as neighbours of chunk [n] exactly the positions
    within [CONTEXT_WINDOW] of [n] that exist in the file, those before
    [n] under [prev_chunks] and those after it under [next_chunks]. *)
Theorem split_text_chunks body fpath fname ftype :
  let docs := split_text text_splitter body fpath fname ftype in
  text <$> docs = text_splitter body
  ∧ ∀ (n : nat) d, docs !! n = Some d →
      chunk_id (metadata d) = Z.of_nat n
      ∧ chunk_total (metadata d) = Z.of_nat (length docs)
      ∧ (∀ j, j ∈ prev_chunks (metadata d)
              ↔ 0 ≤ j ∧ Z.of_nat n - CONTEXT_WINDOW ≤ j < Z.of_nat n)
      ∧ (∀ j, j ∈ next_chunks (metadata d)
              ↔ Z.of_nat n < j ≤ Z.of_nat n + CONTEXT_WINDOW
                ∧ j < Z.of_nat (length docs)).
Proof.
  intros docs.
  assert (length docs = length (text_splitter body)) as Hlen
    by (subst docs; unfold split_text; apply length_imap).
  split.
  - apply list_eq. intros n. rewrite list_lookup_fmap.
    destruct (docs !! n) as [d|] eqn:Hd; cbn.
    + by apply split_text_lookup in Hd as (-> & _).
    + symmetry. apply lookup_ge_None. apply lookup_ge_None in Hd. lia.
  - intros n d Hd. rewrite Hlen.
    apply split_text_lookup in Hd as (_ & _ & ? & ? & ? & ?). done.
Qed.

(** Every recorded neighbour is the position of a chunk of the same
    file, at most [CONTEXT_WINDOW] recorded on either side, and the
    relation is symmetric: [m] is a next chunk of [n] exactly when [n] is
    a previous chunk of [m]. *)
Theorem split_text_neighbours body fpath fname ftype (n : nat) (d : Entry) :
  let docs := split_text text_splitter body fpath fname ftype in
  docs !! n = Some d →
  (∀ j, j ∈ prev_chunks (metadata d) ++ next_chunks (metadata d) →
        0 ≤ j ∧ j ≠ Z.of_nat n ∧ is_Some (docs !! Z.to_nat j))
  ∧ (∀ (m : nat) d', docs !! m = Some d' →
        (Z.of_nat m ∈ next_chunks (metadata d)
         ↔ Z.of_nat n ∈ prev_chunks (metadata d'))).
Proof.
  intros docs Hd.
  assert (length docs = length (text_splitter body)) as Hlen
    by (subst docs; unfold split_text; apply length_imap).
  pose proof Hd as (_ & _ & _ & _ & Hprev & Hnext)%split_text_lookup.
  pose proof (lookup_lt_Some _ _ _ Hd) as Hn.
  unfold CONTEXT_WINDOW in *. split.
  - intros j [Hj|Hj]%elem_of_app.
    + apply Hprev in Hj. split_and!; [lia | lia |].
      apply lookup_lt_is_Some_2. lia.
    + apply Hnext in Hj. split_and!; [lia | lia |].
      apply lookup_lt_is_Some_2. lia.
  - intros m d' Hd'.
    pose proof Hd' as (_ & _ & _ & _ & Hprev' & _)%split_text_lookup.
    pose proof (lookup_lt_Some _ _ _ Hd') as Hm.
    rewrite Hnext, Hprev'. unfold CONTEXT_WINDOW. lia.
Qed.

End split_text.

(** The text [abcde] in chunks of one character: the middle chunk has two
    neighbours on either side. *)
Lemma split_text_neighbours_witness :
  let docs :=
    split_text one_char_chunks (py "abcde") (py "/tmp/a.txt") (py "a.txt")
      (py "Text") in
  let d :=
    {| text := py "c";
       metadata := {| file_path := py "/tmp/a.txt"; file_name := py "a.txt";
                      file_type := py "Text"; chunk_id := 2;
                      chunk_total := 5; prev_chunks := [0; 1];
                      next_chunks := [3; 4]; file_chunk_index := 2 |} |} in
  docs !! 2%nat = Some d
  ∧ (∀ j, j ∈ prev_chunks (metadata d) ++ next_chunks (metadata d) →
          0 ≤ j ∧ j ≠ 2 ∧ is_Some (docs !! Z.to_nat j))
  ∧ (∀ (m : nat) d', docs !! m = Some d' →
        (Z.of_nat m ∈ next_chunks (metadata d)
         ↔ 2 ∈ prev_chunks (metadata d'))).
Proof.
  intros docs d.
  assert (docs !! 2%nat = Some d) as Hd by (vm_compute; reflexivity).
  split; [exact Hd|].
  exact (split_text_neighbours one_char_chunks (py "abcde") (py "/tmp/a.txt")
           (py "a.txt") (py "Text") 2%nat d Hd).
Defined.

End EmbedderFacts.

(** ** Directories *)

Module DirectoryFacts.
Import NameCodec NameCodecFacts Store.
Local Open Scope N_scope.

Lemma index_dir_of_segment (safe : pystr) :
  path_segment safe → index_dir_of safe = [py "index"; safe].
Proof.
  intros (H0 & H1 & H2 & _). unfold index_dir_of.
  rewrite decide_False by done. rewrite decide_False; [done|]. tauto.
Qed.

(** Two different collection names, neither empty nor [.] nor [..],
    never share a directory: each gets the directory [index/<encoded
    name>], and the encoded names differ. *)
Theorem distinct_names_have_distinct_directories (n1 n2 s1 s2 : pystr) :
  quote n1 = Ok s1 → quote n2 = Ok s2 →
  n1 ≠ [] → n1 ≠ py "." → n1 ≠ py ".." →
  n2 ≠ [] → n2 ≠ py "." → n2 ≠ py ".." →
  index_dir_of s1 = [py "index"; s1]
  ∧ index_dir_of s2 = [py "index"; s2]
  ∧ (index_dir_of s1 = index_dir_of s2 → n1 = n2).
Proof.
  intros Hq1 Hq2 ? ? ? ? ? ?.
  assert (∀ n s, quote n = Ok s → n ≠ [] → n ≠ py "." → n ≠ py ".." →
            path_segment s) as Hseg.
  { intros n s Hq ? ? ?.
    assert (Forall scalar_value n) as Hsc.
    { unfold quote in Hq. destruct (utf8_encode n) eqn:He; [|done].
      by eapply utf8_encode_scalar. }
    destruct (quote_unquote n Hsc) as (s' & Hs' & Hch & Hun).
    assert (s' = s) as -> by congruence.
    by eapply quoted_path_segment. }
  rewrite !index_dir_of_segment by eauto.
  split_and!; [done | done |].
  intros [= ->]. by eapply quote_inj.
Qed.

Lemma quote_plain (name : pystr) :
  Forall (λ c, always_safe c = true) name → quote name = Ok name.
Proof.
  intros Hall. unfold quote.
  assert (utf8_encode name = Ok name) as ->.
  { induction Hall as [|c s Hc _ IH]; [done|]. cbn [utf8_encode].
    apply always_safe_spec in Hc. unfold utf8_encode_cp.
    rewrite decide_True by lia. cbn [mbind result_bind]. by rewrite IH. }
  cbn [mbind result_bind]. f_equal.
  induction Hall as [|c s Hc _ IH]; [done|]. csimpl.
  unfold quote_byte at 1. by rewrite Hc, IH.
Qed.

(** A name made only of letters, digits and [_.-~], other than [.] and
    [..], is its own encoding: the collection is stored in [index/<name>],
    and the directory name decodes to the name. *)
Theorem plain_name_is_its_directory (name : pystr) :
  Forall (λ c, always_safe c = true) name →
  name ≠ [] → name ≠ py "." → name ≠ py ".." →
  quote name = Ok name
  ∧ index_dir_of name = [py "index"; name]
  ∧ get_original_db_name name = name.
Proof.
  intros Hall H0 H1 H2. split_and!.
  - by apply quote_plain.
  - unfold index_dir_of. rewrite decide_False by done.
    rewrite decide_False; [done|]. tauto.
  - unfold get_original_db_name, unquote. rewrite decide_False; [done|].
    intros Hin. rewrite Forall_forall in Hall.
    specialize (Hall _ Hin). by vm_compute in Hall.
Qed.

(** The names [a/b] and [a b] get the directories [index/a%2Fb] and
    [index/a%20b]. *)
Lemma distinct_names_have_distinct_directories_witness :
  quote (py "a/b") = Ok (py "a%2Fb")
  ∧ quote (py "a b") = Ok (py "a%20b")
  ∧ index_dir_of (py "a%2Fb") = [py "index"; py "a%2Fb"]
  ∧ index_dir_of (py "a%20b") = [py "index"; py "a%20b"]
  ∧ (index_dir_of (py "a%2Fb") = index_dir_of (py "a%20b") →
     py "a/b" = py "a b").
Proof.
  assert (quote (py "a/b") = Ok (py "a%2Fb")) as Hq1
    by (vm_compute; reflexivity).
  assert (quote (py "a b") = Ok (py "a%20b")) as Hq2
    by (vm_compute; reflexivity).
  split; [exact Hq1|]. split; [exact Hq2|].
  apply (distinct_names_have_distinct_directories (py "a/b") (py "a b")
           (py "a%2Fb") (py "a%20b") Hq1 Hq2);
    intros H; vm_compute in H; discriminate H.
Defined.

(** The name [my_db-1.0~x] is stored in [index/my_db-1.0~x]. *)
Lemma plain_name_is_its_directory_witness :
  Forall (λ c, always_safe c = true) (py "my_db-1.0~x")
  ∧ quote (py "my_db-1.0~x") = Ok (py "my_db-1.0~x")
  ∧ index_dir_of (py "my_db-1.0~x") = [py "index"; py "my_db-1.0~x"]
  ∧ get_original_db_name (py "my_db-1.0~x") = py "my_db-1.0~x".
Proof.
  assert (Forall (λ c, always_safe c = true) (py "my_db-1.0~x")) as Hall.
  { apply (bool_decide_eq_true_1 _). vm_compute. reflexivity. }
  split; [exact Hall|].
  apply (plain_name_is_its_directory (py "my_db-1.0~x") Hall);
    intros H; vm_compute in H; discriminate H.
Defined.

End DirectoryFacts.

(** ** Neighbours recorded by the embedder, as the store reads them *)

Module ContextFacts.
Import Store Embedder SearchMore EmbedderFacts.
Local Open Scope Z_scope.

Section context.
Context {float32 : Type}.
Context (text_splitter : pystr → list pystr).

(** For a file whose chunks are stored after [pre] other chunks, the
    related set of its [n]-th chunk holds the position of that chunk in
    the collection and, as neighbours, the positions within [CONTEXT_WINDOW]
    of [n] counted inside the file: the neighbours are not shifted by the
    number of chunks stored before the file. *)
Theorem related_chunks_are_file_local (v : VectorStore float32)
    (pre : list Entry) (body fpath fname ftype : pystr) (n : nat) (j : Z) :
  let chunks := split_text text_splitter body fpath fname ftype in
  metadata_list v = pre ++ chunks →
  (n < length chunks)%nat →
  j ∈ _get_related_chunks v [Z.of_nat (length pre + n)]
  ↔ j = Z.of_nat (length pre + n)
    ∨ (0 ≤ j < Z.of_nat (length chunks) ∧ j ≠ Z.of_nat n
       ∧ Z.of_nat n - CONTEXT_WINDOW ≤ j ≤ Z.of_nat n + CONTEXT_WINDOW).
Proof.
  intros chunks Hml Hn.
  assert (length chunks = length (text_splitter body)) as Hlen
    by (subst chunks; unfold split_text; apply length_imap).
  destruct (lookup_lt_is_Some_2 chunks n Hn) as [e He].
  pose proof He as (_ & _ & _ & _ & Hprev & Hnext)%split_text_lookup.
  assert (metadata_list v !! Z.to_nat (Z.of_nat (length pre + n)) = Some e)
    as Hv.
  { rewrite Nat2Z.id, Hml, lookup_app_r by lia.
    by replace (length pre + n - length pre)%nat with n by lia. }
  unfold _get_related_chunks. rewrite related_fold.
  unfold related_to, CONTEXT_WINDOW in *. split.
  - intros [H|(idx & ->%list_elem_of_singleton & _ & e' & He' & Hj)];
      [by apply not_elem_of_empty in H|].
    rewrite Hv in He'. simplify_eq.
    destruct Hj as [->|[Hj|Hj]]; [by left | right | right].
    + apply Hprev in Hj. lia.
    + apply Hnext in Hj. lia.
  - intros Hj. right. exists (Z.of_nat (length pre + n)).
    split; [by apply list_elem_of_singleton|]. split; [lia|].
    exists e. split; [done|].
    destruct Hj as [->|(H0 & Hne & Hw)]; [by left | right].
    destruct (decide (j < Z.of_nat n)).
    + left. apply Hprev. lia.
    + right. apply Hnext. lia.
Qed.

End context.

Import ZFlat.

(** A file of three one-character chunks stored after the five chunks of
    another file: the related set of its first chunk, at position 5,
    holds the positions 1 and 2, which are chunks of the other file. *)
Lemma related_chunks_are_file_local_witness :
  let pre := entry_of <$> five_chunks in
  let chunks :=
    split_text one_char_chunks (py "abc") (py "/tmp/a.txt") (py "a.txt")
      (py "Text") in
  let v := set_metadata_list (pre ++ chunks) (store_of five_chunks) in
  metadata_list v = pre ++ chunks
  ∧ (0 < length chunks)%nat
  ∧ 5 ∈ _get_related_chunks v [5]
  ∧ 1 ∈ _get_related_chunks v [5]
  ∧ 2 ∈ _get_related_chunks v [5]
  ∧ 6 ∉ _get_related_chunks v [5].
Proof.
  intros pre chunks v.
  assert (metadata_list v = pre ++ chunks) as Hml by reflexivity.
  assert (0 < length chunks)%nat as Hn by (vm_compute; lia).
  split; [exact Hml|]. split; [exact Hn|].
  pose proof (λ j, related_chunks_are_file_local one_char_chunks v pre
                (py "abc") (py "/tmp/a.txt") (py "a.txt") (py "Text")
                0%nat j Hml Hn) as H.
  change (Z.of_nat (length pre + 0)) with 5 in H.
  change (Z.of_nat (length (split_text _ _ _ _ _))) with 3 in H.
  unfold CONTEXT_WINDOW in H. cbn [Z.of_nat] in H.
  split_and!.
  - apply H. by left.
  - apply H. right. lia.
  - apply H. right. lia.
  - intros H6%H. lia.
Defined.

End ContextFacts.
